(** * overcast-sonos: the episode cache and the offset reconciliation

    A shallow embedding of [overcast.py] (class [Overcast]) and of the
    playback handlers of [overcast-sonos.py].

    - Python [int] is [Z]; the quotient [offsetMillis/1000] (true division)
      is the exact rational, in [Q].
    - A dict literal with fixed keys is a record; [None] is [option]'s [None].
    - [self.episode_cache] is an [OrderedDict]: an association list, oldest
      binding first.
    - [self.session] is seen through the requests it sends: the state keeps
      their log; the pages the remote site answers with are an input.
    - Python exceptions are the [Raise] outcome of a state-and-error monad;
      the state reached when the exception leaves the call is kept. *)

From Stdlib Require Import List String Ascii ZArith QArith Bool Lia.
From Stdlib Require Import Sorted Permutation.
Import ListNotations.

#[local] Open Scope string_scope.
#[local] Open Scope Z_scope.

(** ** Python strings *)

Module PyStr.

(** [needle in hay] *)
Fixpoint contains (needle hay : string) : bool :=
  prefix needle hay ||
  match hay with
  | EmptyString => false
  | String _ hay' => contains needle hay'
  end.

(** [s.lstrip(c)] for a single character [c] *)
Fixpoint lstrip (c : ascii) (s : string) : string :=
  match s with
  | String a s' => if Ascii.eqb a c then lstrip c s' else s
  | EmptyString => EmptyString
  end.

(** [s.replace(c, '')] for a single character [c] *)
Fixpoint remove (c : ascii) (s : string) : string :=
  match s with
  | String a s' => if Ascii.eqb a c then remove c s' else String a (remove c s')
  | EmptyString => EmptyString
  end.

(** [s.split(c)] for a single character [c]; never the empty list *)
Fixpoint split (c : ascii) (s : string) : list string :=
  match s with
  | EmptyString => [EmptyString]
  | String a s' =>
      if Ascii.eqb a c then EmptyString :: split c s'
      else match split c s' with
           | w :: ws => String a w :: ws
           | [] => [String a EmptyString]
           end
  end.

(** [s.rsplit('/', 1)]: [None] stands for the one-element list [[s]],
    [Some (a, b)] for the two-element list [[a, b]]. *)
Fixpoint rsplit1 (c : ascii) (s : string) : option (string * string) :=
  match s with
  | EmptyString => None
  | String a s' =>
      match rsplit1 c s' with
      | Some (h, t) => Some (String a h, t)
      | None => if Ascii.eqb a c then Some (EmptyString, s') else None
      end
  end.

(** [s.split(c, 1)]: [None] stands for the one-element list [[s]],
    [Some (a, b)] for the two-element list [[a, b]]. *)
Fixpoint split1 (c : ascii) (s : string) : option (string * string) :=
  match s with
  | EmptyString => None
  | String a s' =>
      if Ascii.eqb a c then Some (EmptyString, s')
      else match split1 c s' with
           | Some (h, t) => Some (String a h, t)
           | None => None
           end
  end.

(** [x in xs] for a list of strings *)
Definition mem (x : string) (xs : list string) : bool :=
  existsb (String.eqb x) xs.

Definition newline : ascii := Ascii.ascii_of_nat 10.

End PyStr.

(** ** Exceptions and the monad of the service object *)

Inductive exn : Type :=
| IndexError
| KeyError
| ValueError
| TypeError
| Exception (msg : string).

Inductive result (A : Type) : Type :=
| Raise (e : exn)
| Return (a : A).
Arguments Raise {A} e.
Arguments Return {A} a.

(** ** The markup extraction boundary

    What the code reads of an lxml element: its text, its attributes and the
    answers to [cssselect], one list of elements per selector. *)

#[local] Set Warnings "-register-all".

Inductive Element : Type :=
| mkElement (text : string) (attrs : list (string * string))
            (selects : list (string * list Element)).

Definition text_content (e : Element) : string :=
  let 'mkElement t _ _ := e in t.

Definition attrib (e : Element) : list (string * string) :=
  let 'mkElement _ a _ := e in a.

Definition selects (e : Element) : list (string * list Element) :=
  let 'mkElement _ _ s := e in s.

Fixpoint assoc {V : Type} (k : string) (l : list (string * V)) : option V :=
  match l with
  | [] => None
  | (k', v) :: l' => if String.eqb k k' then Some v else assoc k l'
  end.

(** [e.cssselect(sel)] *)
Definition cssselect (e : Element) (sel : string) : list Element :=
  match assoc sel (selects e) with
  | Some l => l
  | None => []
  end.

(** [name in e.attrib] *)
Definition has_attrib (e : Element) (name : string) : bool :=
  match assoc name (attrib e) with
  | Some _ => true
  | None => false
  end.

(** [e.attrib.get(name, default)] *)
Definition attrib_get (e : Element) (name default : string) : string :=
  match assoc name (attrib e) with
  | Some v => v
  | None => default
  end.

(** ** Records *)

(** The dict built by [get_episode_detail]. *)
Record Episode : Type := mkEpisode {
  id : string;
  title : string;
  podcast_title : string;
  offsetMillis : Z;
  duration : Z;
  data_item_id : string;
  data_sync_version : string;
  albumArtURI : string;
  parsed_audio_uri : string;
  audio_type : string;
  delete_episode_uri : string
}.

(** [episode['offsetMillis'] = v] *)
Definition set_offsetMillis (e : Episode) (v : Z) : Episode :=
  {| id := id e; title := title e; podcast_title := podcast_title e;
     offsetMillis := v; duration := duration e;
     data_item_id := data_item_id e;
     data_sync_version := data_sync_version e;
     albumArtURI := albumArtURI e; parsed_audio_uri := parsed_audio_uri e;
     audio_type := audio_type e;
     delete_episode_uri := delete_episode_uri e |}.

(** The dict built by [get_all_podcast_episodes]. *)
Record EpisodeSummary : Type := mkEpisodeSummary {
  s_id : string;
  s_title : string;
  s_audio_type : string;
  s_podcast_title : string;
  s_albumArtURI : string;
  s_summary : string;
  s_releasedate : string
}.

(** ** The ordered dict *)

Module OrderedDict.

Definition t (V : Type) : Type := list (string * V).

Definition get {V} (k : string) (d : t V) : option V := assoc k d.

(** What [d.pop(k)] leaves. A dict binds a key once, so every binding of
    [k] goes. *)
Definition remove {V} (k : string) (d : t V) : t V :=
  filter (fun kv => negb (String.eqb k (fst kv))) d.

(** [d[k] = v]: a bound key keeps its place, a new key goes last. *)
Fixpoint setitem {V} (k : string) (v : V) (d : t V) : t V :=
  match d with
  | [] => [(k, v)]
  | (k', v') :: d' =>
      if String.eqb k k' then (k, v) :: d' else (k', v') :: setitem k v d'
  end.

Definition keys {V} (d : t V) : list string := map fst d.

End OrderedDict.

(** ** Requests sent through the session *)

Inductive param : Type :=
| PInt (z : Z)
| PNum (q : Q)
| PStr (s : string).

Inductive Request : Type :=
| GET (url : string)
| POST (url : string) (params : list (string * param)).

(** The fields of the [Overcast] object. *)
Record Overcast : Type := mkOvercast {
  episode_cache : OrderedDict.t Episode;
  session : list Request
}.

Definition M (A : Type) : Type := Overcast -> result A * Overcast.

Definition ret {A} (a : A) : M A := fun st => (Return a, st).

Definition raise {A} (e : exn) : M A := fun st => (Raise e, st).

Definition bind {A B} (m : M A) (k : A -> M B) : M B :=
  fun st =>
    match m st with
    | (Return a, st') => k a st'
    | (Raise e, st') => (Raise e, st')
    end.

Notation "x <- m ;; k" := (bind m (fun x => k))
  (at level 61, m at next level, right associativity).
Notation "m ;;; k" := (bind m (fun _ => k))
  (at level 61, right associativity).

(** [l[n]] *)
Definition getitem {A} (l : list A) (n : nat) : M A :=
  match nth_error l n with
  | Some a => ret a
  | None => raise IndexError
  end.

(** [e.attrib[name]] *)
Definition attrib_item (e : Element) (name : string) : M string :=
  match assoc name (attrib e) with
  | Some v => ret v
  | None => raise KeyError
  end.

Definition get_cache : M (OrderedDict.t Episode) :=
  fun st => (Return (episode_cache st), st).

Definition put_cache (c : OrderedDict.t Episode) : M unit :=
  fun st => (Return tt, {| episode_cache := c; session := session st |}).

Definition send (r : Request) : M unit :=
  fun st => (Return tt, {| episode_cache := episode_cache st;
                           session := (session st ++ [r])%list |}).

(** ** What the code takes from outside the two files

    [urllib.parse.urljoin], the built-ins [int] and [str.strip], and the
    functions of the [utilities] module. [py_int s = None] is the
    [ValueError] of [int(s)]; [duration_in_seconds] answers an [int] or
    [None]. *)

Class Externals : Type := {
  urljoin : string -> string -> string;
  py_int : string -> option Z;
  str_strip : string -> string;
  duration_in_seconds : string -> option Z;
  convert_release_date : string -> string;
  final_redirect_url : string -> string
}.

Definition UNPLAYED_EPISODE_PREFIX : string := "* ".
Definition EPISODE_CACHE_SIZE : nat := 5.
Definition REPORT_PLAY_SECONDS_INTERVAL : Z := 30.

(** [offsetMillis/1000] *)
Definition true_div (a b : Z) : Q := (inject_Z a / inject_Z b)%Q.

(** [while len(cache) > EPISODE_CACHE_SIZE: cache.popitem(last=False)].
    The loop body runs on a non-empty dict only, so [popitem] cannot raise. *)
Fixpoint purge (cache : OrderedDict.t Episode) : OrderedDict.t Episode :=
  match cache with
  | [] => []
  | _ :: rest =>
      if (EPISODE_CACHE_SIZE <? List.length cache)%nat then purge rest
      else cache
  end.

(** The dict built by [create_podcast_from_cell]. *)
Record Podcast : Type := mkPodcast {
  p_id : string;
  p_title : string;
  p_albumArtURI : string
}.

(** [podcasts.sort(key=lambda item: item.get("title"))]. The sort of Python
    is stable, and strings compare by code point, which is the order of
    their UTF-8 bytes: an insertion that keeps equal titles in their
    order. *)
Fixpoint insert_by_title (p : Podcast) (sorted : list Podcast)
  : list Podcast :=
  match sorted with
  | [] => [p]
  | q :: rest =>
      if String.leb (p_title p) (p_title q) then p :: q :: rest
      else q :: insert_by_title p rest
  end.

Fixpoint sort_by_title (podcasts : list Podcast) : list Podcast :=
  match podcasts with
  | [] => []
  | p :: rest => insert_by_title p (sort_by_title rest)
  end.

(** [l[i:j]] for integers [i] and [j]: a negative bound counts from the
    end, and both are clipped to the list. *)
Definition slice_bound (len k : Z) : Z :=
  if k <? 0 then Z.max (k + len) 0 else Z.min k len.

Definition py_slice {A} (l : list A) (i j : Z) : list A :=
  let len := Z.of_nat (List.length l) in
  let start := slice_bound len i in
  let stop := slice_bound len j in
  firstn (Z.to_nat (stop - start)) (skipn (Z.to_nat start) l).

Section OvercastClient.

Context {ext : Externals}.

(** The document the remote site answers a GET of [url] with. *)
Variable site : string -> Element.

Definition _get_html (url : string) : M Element :=
  send (GET url) ;;; ret (site url).

Definition get_episode_time_remaining_seconds_from_episode_cell
    (cell : Element) (is_extended_cell : bool) : M (option Z) :=
  let unparsed_time_remaining_index :=
    if is_extended_cell then 1%nat else 2%nat in
  line <- getitem (cssselect cell "div.singleline")
                  unparsed_time_remaining_index ;;
  ret (duration_in_seconds (text_content line)).

(** The [for cell in ...] loop of [get_episode_time_remaining_seconds]. *)
Fixpoint time_remaining_of_cells (episode_id : string)
    (cells : list Element) : M (option Z) :=
  match cells with
  | [] => ret None
  | cell :: rest =>
      href <- attrib_item cell "href" ;;
      if PyStr.contains episode_id href
      then get_episode_time_remaining_seconds_from_episode_cell cell true
      else time_remaining_of_cells episode_id rest
  end.

Definition get_episode_time_remaining_seconds
    (episode_id : string) (episode_html : Element) : M (option Z) :=
  a <- getitem (cssselect episode_html "div.centertext h3 a") 0 ;;
  podcast_id <- attrib_item a "href" ;;
  doc <- _get_html (urljoin "https://overcast.fm" podcast_id) ;;
  time_remaining_of_cells episode_id (cssselect doc "a.extendedepisodecell").

(** The block under [if not episode:]: the page is fetched and parsed. *)
Definition fetch_episode_detail (episode_id : string) : M (option Episode) :=
  let episode_href := urljoin "https://overcast.fm" episode_id in
  doc <- _get_html episode_href ;;
  let audioplayer := cssselect doc "audio#audioplayer" in
  if (0 <? List.length audioplayer)%nat then
    h2 <- getitem (cssselect doc "div.centertext h2") 0 ;;
    let title := text_content h2 in
    player <- getitem audioplayer 0 ;;
    start_time <- attrib_item player "data-start-time" ;;
    time_elapsed_seconds <-
      match py_int start_time with
      | Some n => ret n
      | None => raise ValueError
      end ;;
    time_remaining_seconds <-
      get_episode_time_remaining_seconds episode_id doc ;;
    let hacked_duration :=
      if PyStr.contains "Scorchin’ Radio" title then 3600 else -1 in
    let duration :=
      match time_remaining_seconds with
      | Some remaining =>
          if negb (remaining =? 0) && negb (remaining =? -1) then
            let duration := time_elapsed_seconds + remaining in
            if time_elapsed_seconds =? duration then -1 else duration
          else hacked_duration
      | None => hacked_duration
      end in
    let audioplayer_source := cssselect doc "audio#audioplayer source" in
    h3a <- getitem (cssselect doc "div.centertext h3 a") 0 ;;
    data_item_id <- attrib_item player "data-item-id" ;;
    data_sync_version <- attrib_item player "data-sync-version" ;;
    img <- getitem (cssselect doc "div.fullart_container img") 0 ;;
    albumArtURI <- attrib_item img "src" ;;
    source <- getitem audioplayer_source 0 ;;
    parsed_audio_uri <- attrib_item source "src" ;;
    audio_type <- attrib_item source "type" ;;
    button <- getitem (cssselect doc "a#delete_episode_button") 0 ;;
    delete_episode_uri <- attrib_item button "href" ;;
    ret (Some {| id := PyStr.lstrip "/" episode_href;
                 title := title;
                 podcast_title := text_content h3a;
                 offsetMillis := time_elapsed_seconds * 1000;
                 duration := duration;
                 data_item_id := data_item_id;
                 data_sync_version := data_sync_version;
                 albumArtURI := albumArtURI;
                 parsed_audio_uri := parsed_audio_uri;
                 audio_type := audio_type;
                 delete_episode_uri := delete_episode_uri |})
  else ret None.

(** [get_episode_detail(episode_id, updated_offset_millis=-1)].
    An episode dict has eleven keys, so [not episode] is [episode is None]. *)
Definition get_episode_detail (episode_id : string)
    (updated_offset_millis : Z) : M (option Episode) :=
  cache <- get_cache ;;
  episode <-
    match OrderedDict.get episode_id cache with
    | Some episode =>
        put_cache (OrderedDict.remove episode_id cache) ;;;
        if (updated_offset_millis =? -1) || (duration episode =? -1)
        then ret None
        else if updated_offset_millis >? -1
        then ret (Some (set_offsetMillis episode updated_offset_millis))
        else ret (Some episode)
    | None => ret None
    end ;;
  episode <-
    match episode with
    | Some episode => ret (Some episode)
    | None => fetch_episode_detail episode_id
    end ;;
  match episode with
  | Some e =>
      cache <- get_cache ;;
      put_cache (purge (OrderedDict.setitem episode_id e cache)) ;;;
      ret (Some e)
  | None => ret None
  end.

Definition delete_episode (episode : Episode) : M unit :=
  let url := "https://overcast.fm" ++ delete_episode_uri episode in
  send (POST url []).

(** [episode] is what [get_episode_detail] returned: [None] has no
    ['duration'], and the first statement reads it. *)
Definition update_episode_offset (episode : option Episode)
    (updated_offset_seconds : Q) : M unit :=
  match episode with
  | None => raise TypeError
  | Some episode =>
      let url := "https://overcast.fm/podcasts/set_progress/"
                 ++ data_item_id episode in
      let params := [("p", PNum updated_offset_seconds);
                     ("speed", PInt 0);
                     ("v", PStr (data_sync_version episode))] in
      send (POST url params) ;;;
      if Qle_bool (inject_Z (duration episode - 60)) updated_offset_seconds
      then delete_episode episode
      else ret tt
  end.

Definition create_podcast_from_cell (cell : Element) : M Podcast :=
  href <- attrib_item cell "href" ;;
  title_div <- getitem (cssselect cell "div.title") 0 ;;
  img <- getitem (cssselect cell "img") 0 ;;
  src <- attrib_item img "src" ;;
  ret {| p_id := PyStr.lstrip "/" href;
         p_title := text_content title_div;
         p_albumArtURI := src |}.

(** One turn of the [for cell in ...] loop of [get_all_podcasts]: the list
    [podcasts] after the turn. *)
Definition podcast_of_cell (unplayed_only : bool) (cell : Element)
    (podcasts : list Podcast) : M (list Podcast) :=
  if has_attrib cell "href" then
    let unplayed :=
      (0 <? List.length (cssselect cell "svg.unplayed_indicator"))%nat in
    if negb unplayed_only || (unplayed_only && unplayed) then
      podcast <- create_podcast_from_cell cell ;;
      ret (podcasts ++ [podcast])%list
    else ret podcasts
  else ret podcasts.

Fixpoint podcasts_of_cells (unplayed_only : bool) (cells : list Element)
    (podcasts : list Podcast) : M (list Podcast) :=
  match cells with
  | [] => ret podcasts
  | cell :: rest =>
      podcasts' <- podcast_of_cell unplayed_only cell podcasts ;;
      podcasts_of_cells unplayed_only rest podcasts'
  end.

Definition get_all_podcasts (unplayed_only : bool) : M (list Podcast) :=
  doc <- _get_html "https://overcast.fm/podcasts" ;;
  podcasts <- podcasts_of_cells unplayed_only
                (cssselect doc "a.feedcell") [] ;;
  ret (sort_by_title podcasts).

(** One turn of the [for cell in ...] loop of [get_all_podcast_episodes]:
    the list [episodes] after the turn. *)
Definition episode_of_cell (podcast_title album_art_uri : string)
    (unplayed_only : bool) (cell : Element)
    (episodes : list EpisodeSummary) : M (list EpisodeSummary) :=
  if has_attrib cell "href" then
    let episode_prefix :=
      if PyStr.mem "usernewepisode"
           (PyStr.split " " (attrib_get cell "class" ""))
      then UNPLAYED_EPISODE_PREFIX else "" in
    if negb unplayed_only
       || (unplayed_only && negb (String.eqb episode_prefix ""))
    then
      let episode_id :=
        PyStr.lstrip "/"
          (urljoin "https://overcast.fm" (attrib_get cell "href" "")) in
      title_div <- getitem (cssselect cell "div.titlestack div.title") 0 ;;
      let episode_title :=
        PyStr.remove PyStr.newline (str_strip (text_content title_div)) in
      caption <- getitem (cssselect cell "div.titlestack div.caption2") 0 ;;
      let summary :=
        PyStr.remove PyStr.newline (str_strip (text_content caption)) in
      let release_date := convert_release_date summary in
      let episode :=
        {| s_id := episode_id;
           s_title := episode_prefix ++ episode_title;
           s_audio_type := "audio/mpeg";
           s_podcast_title := podcast_title;
           s_albumArtURI := album_art_uri;
           s_summary := summary;
           s_releasedate := release_date |} in
      if unplayed_only then ret (episode :: episodes)
      else ret (episodes ++ [episode])%list
    else ret episodes
  else ret episodes.

Fixpoint episodes_of_cells (podcast_title album_art_uri : string)
    (unplayed_only : bool) (cells : list Element)
    (episodes : list EpisodeSummary) : M (list EpisodeSummary) :=
  match cells with
  | [] => ret episodes
  | cell :: rest =>
      episodes' <- episode_of_cell podcast_title album_art_uri
                     unplayed_only cell episodes ;;
      episodes_of_cells podcast_title album_art_uri unplayed_only
        rest episodes'
  end.

Definition get_all_podcast_episodes (podcast_id : string)
    (unplayed_only : bool) : M (list EpisodeSummary) :=
  let podcast_href := urljoin "https://overcast.fm" podcast_id in
  doc <- _get_html podcast_href ;;
  art <- getitem (cssselect doc "img.art") 0 ;;
  album_art_uri <- attrib_item art "src" ;;
  h2 <- getitem (cssselect doc "h2.centertext") 0 ;;
  let podcast_title := text_content h2 in
  episodes_of_cells podcast_title album_art_uri unplayed_only
    (cssselect doc "a.extendedepisodecell") [].

(** *** The handlers of [overcast-sonos.py]

    The module-level [overcast] object is the state of [M]. *)

Record positionInformation : Type := mkPositionInformation {
  pi_id : string;
  pi_index : Z;
  pi_offsetMillis : Z
}.

Record MediaURIResponse : Type := mkMediaURIResponse {
  getMediaURIResult : string;
  getMediaURI_positionInformation : positionInformation
}.

(** [id.rsplit('/', 1)[-1]] *)
Definition last_segment (id_ : string) : string :=
  match PyStr.rsplit1 "/" id_ with
  | Some (_, episode_id) => episode_id
  | None => id_
  end.

Definition getMediaURI (id_ : string) : M MediaURIResponse :=
  match PyStr.rsplit1 "/" id_ with
  | None => raise ValueError
  | Some (_, episode_id) =>
      episode <- get_episode_detail episode_id (-1) ;;
      match episode with
      | None => raise TypeError
      | Some episode =>
          let parsed_audio_uri := parsed_audio_uri episode in
          let audio_uri := final_redirect_url parsed_audio_uri in
          ret {| getMediaURIResult := audio_uri;
                 getMediaURI_positionInformation :=
                   {| pi_id := "episodes/" ++ id episode;
                      pi_index := 0;
                      pi_offsetMillis := offsetMillis episode |} |}
      end
  end.

(** The result is the ['interval'] of the response. *)
Definition reportPlaySeconds (id_ : string) (seconds offsetMillis : Z)
    (contextId : string) : M Z :=
  let episode_id := last_segment id_ in
  episode <- get_episode_detail episode_id offsetMillis ;;
  update_episode_offset episode (true_div offsetMillis 1000) ;;;
  ret REPORT_PLAY_SECONDS_INTERVAL.

Definition reportPlayStatus (id_ status : string) (offsetMillis : Z)
    (contextId : string) : M unit :=
  let episode_id := last_segment id_ in
  episode <- get_episode_detail episode_id offsetMillis ;;
  update_episode_offset episode (true_div offsetMillis 1000).

Definition setPlayedSeconds (id_ : string) (seconds offsetMillis : Z)
    (contextId : string) : M unit :=
  let episode_id := last_segment id_ in
  episode <- get_episode_detail episode_id offsetMillis ;;
  update_episode_offset episode (true_div offsetMillis 1000).

Definition DEFAULT_ALBUM_ART_URI : string :=
  "http://is3.mzstatic.com/image/thumb/Purple111/v4/20/5b/5e/205b5ef7-ee0e-7d0c-2d11-12f611c579f4/source/175x175bb.jpg".
Definition ALL_PODCASTS_ID : string := "all_podcasts".
Definition UNPLAYED_PODCASTS_ID : string := "unplayed_podcasts".
Definition UNPLAYED_PODCAST_ID_PREFIX : string := "podcast_unplayed".
Definition PODCAST_ID_PREFIX : string := "podcast".

(** The dicts of the responses; a key that a dict literal leaves out is
    [None]. *)
Record mediaCollection : Type := mkMediaCollection {
  mc_id : string;
  mc_title : string;
  mc_itemType : string;
  mc_albumArtURI : string;
  mc_canPlay : bool;
  mc_semanticType : option string;
  mc_producer : option string
}.

Record trackMetadata : Type := mkTrackMetadata {
  tm_artist : string;
  tm_albumArtist : string;
  tm_albumArtURI : string;
  tm_genreId : string;
  tm_duration : option Z;
  tm_canResume : bool
}.

Record mediaMetadata : Type := mkMediaMetadata {
  mm_id : string;
  mm_title : string;
  mm_mimeType : string;
  mm_itemType : string;
  mm_semanticType : option string;
  mm_summary : option string;
  mm_releasedate : option string;
  mm_trackMetadata : trackMetadata
}.

(** The elements of the list under ['getMetadataResult']. *)
Inductive MetadataEntry : Type :=
| Header (index count total : Z)
| Collection (c : mediaCollection)
| Metadata (m : mediaMetadata).

(** [fixed_mimetype_for_episode(episode)] reads ['title'] and
    ['audio_type'] of the dict. *)
Definition fixed_mimetype_for_episode (title audio_type : string) : string :=
  if PyStr.contains "Group Therapy Radio" title then "audio/mp4"
  else if PyStr.contains "Monstercat" title then "audio/mpeg"
  else audio_type.

Definition create_podcast_media_collection (podcast : Podcast)
    (unplayed_only : bool) : mediaCollection :=
  let id_prefix :=
    if unplayed_only then UNPLAYED_PODCAST_ID_PREFIX
    else PODCAST_ID_PREFIX in
  {| mc_id := id_prefix ++ "/" ++ p_id podcast;
     mc_title := p_title podcast;
     mc_albumArtURI := p_albumArtURI podcast;
     mc_itemType := "album";
     mc_semanticType := Some "podcast";
     mc_canPlay := false;
     mc_producer := Some "" |}.

Definition getSessionId (username password : string) : string := username.

(** The two collections at the top of the root view. *)
Definition all_podcasts_collection : mediaCollection :=
  {| mc_id := ALL_PODCASTS_ID; mc_title := "All Podcasts";
     mc_itemType := "collection"; mc_canPlay := false;
     mc_albumArtURI := DEFAULT_ALBUM_ART_URI;
     mc_semanticType := None; mc_producer := None |}.

Definition unplayed_podcasts_collection : mediaCollection :=
  {| mc_id := UNPLAYED_PODCASTS_ID; mc_title := "Unplayed Podcasts";
     mc_itemType := "collection"; mc_canPlay := false;
     mc_albumArtURI := DEFAULT_ALBUM_ART_URI;
     mc_semanticType := None; mc_producer := None |}.

(** The ['mediaMetadata'] of a listed episode. *)
Definition episode_metadata (episode : EpisodeSummary) : mediaMetadata :=
  {| mm_id := "episodes/" ++ s_id episode;
     mm_title := s_title episode;
     mm_mimeType :=
       fixed_mimetype_for_episode (s_title episode) (s_audio_type episode);
     mm_itemType := "track";
     mm_semanticType := Some "episode.podcast";
     mm_summary := Some (s_summary episode);
     mm_releasedate := Some (s_releasedate episode);
     mm_trackMetadata :=
       {| tm_artist := s_podcast_title episode;
          tm_albumArtist := s_podcast_title episode;
          tm_albumArtURI := s_albumArtURI episode;
          tm_genreId := "podcast";
          tm_duration := None;
          tm_canResume := true |} |}.

Definition getMetadata (id_ : string) (index count : Z) (recursive : bool)
  : M (list MetadataEntry) :=
  if String.eqb id_ "root" then
    all_unplayed_podcasts <- get_all_podcasts true ;;
    let podcasts := py_slice all_unplayed_podcasts index (index + count) in
    ret ([Header index (Z.of_nat (List.length podcasts) + 2)
            (Z.of_nat (List.length all_unplayed_podcasts) + 2);
          Collection all_podcasts_collection;
          Collection unplayed_podcasts_collection]
         ++ map (fun podcast =>
                   Collection (create_podcast_media_collection podcast true))
              podcasts)%list
  else if String.eqb id_ ALL_PODCASTS_ID
          || String.eqb id_ UNPLAYED_PODCASTS_ID then
    let unplayed_only := String.eqb id_ UNPLAYED_PODCASTS_ID in
    all_podcasts <- get_all_podcasts unplayed_only ;;
    let podcasts := py_slice all_podcasts index (index + count) in
    ret (Header index (Z.of_nat (List.length podcasts))
           (Z.of_nat (List.length all_podcasts))
         :: map (fun podcast =>
                   Collection
                     (create_podcast_media_collection podcast unplayed_only))
              podcasts)
  else if prefix PODCAST_ID_PREFIX id_ then
    match PyStr.split1 "/" id_ with
    | None => raise ValueError
    | Some (id_prefix, podcast_id) =>
        all_episodes <-
          get_all_podcast_episodes podcast_id
            (String.eqb id_prefix UNPLAYED_PODCAST_ID_PREFIX) ;;
        let episodes := py_slice all_episodes index (index + count) in
        ret (Header index (Z.of_nat (List.length episodes))
               (Z.of_nat (List.length all_episodes))
             :: map (fun episode => Metadata (episode_metadata episode))
                  episodes)
    end
  else ret [Header 0 0 0].

Definition getMediaMetadata (id_ : string) : M (option mediaMetadata) :=
  match PyStr.rsplit1 "/" id_ with
  | None => raise ValueError
  | Some (_, episode_id) =>
      episode <- get_episode_detail episode_id (-1) ;;
      match episode with
      | Some episode =>
          ret (Some
                 {| mm_id := id_;
                    mm_title := title episode;
                    mm_mimeType :=
                      fixed_mimetype_for_episode (title episode)
                        (audio_type episode);
                    mm_itemType := "track";
                    mm_semanticType := None;
                    mm_summary := None;
                    mm_releasedate := None;
                    mm_trackMetadata :=
                      {| tm_artist := podcast_title episode;
                         tm_albumArtist := podcast_title episode;
                         tm_albumArtURI := albumArtURI episode;
                         tm_genreId := "podcast";
                         tm_duration := Some (duration episode);
                         tm_canResume := true |} |})
      | None => ret None
      end
  end.

End OvercastClient.

(** [Overcast.__init__]: the cache starts empty, the session has sent the
    login; [login_page] is the answer to it. *)
Definition Overcast_init {ext : Externals} (login_page : Element)
    (email password : string) : result Overcast :=
  let self :=
    {| episode_cache := [];
       session := [POST "https://overcast.fm/login"
                     [("email", PStr email); ("password", PStr password)]] |} in
  match cssselect login_page "div.alert" with
  | alert :: _ =>
      Raise (Exception ("Can't login: " ++ str_strip (text_content alert)))
  | [] => Return self
  end.

(** ** A small remote site, to run the model on *)

Module Demo.

Fixpoint rstrip (c : ascii) (s : string) : string :=
  match s with
  | EmptyString => EmptyString
  | String a s' =>
      match rstrip c s' with
      | EmptyString => if Ascii.eqb a c then EmptyString
                       else String a EmptyString
      | r => String a r
      end
  end.

Definition digit (a : ascii) : option Z :=
  let n := Z.of_nat (nat_of_ascii a) in
  if (48 <=? n) && (n <=? 57) then Some (n - 48) else None.

Fixpoint digits (acc : Z) (s : string) : option Z :=
  match s with
  | EmptyString => Some acc
  | String a s' =>
      match digit a with
      | Some d => digits (10 * acc + d) s'
      | None => None
      end
  end.

Definition decimal (s : string) : option Z :=
  match s with
  | EmptyString => None
  | _ => digits 0 s
  end.

Definition left_text (s : string) : option Z :=
  if String.eqb s "30 min left" then Some 1800
  else if String.eqb s "1 hr 2 min left" then Some 3720
  else None.

#[export] Instance externals : Externals := {|
  urljoin base path := base ++ "/" ++ PyStr.lstrip "/" path;
  py_int := decimal;
  str_strip s := rstrip " " (PyStr.lstrip " " s);
  duration_in_seconds := left_text;
  convert_release_date s := s;
  final_redirect_url s := s
|}.

Definition txt (s : string) : Element := mkElement s [] [].

Definition cell (href class name left : string) : Element :=
  mkElement name [("href", href); ("class", class)]
    [("div.singleline", [txt "Jan 1"; txt left]);
     ("div.titlestack div.title", [txt name]);
     ("div.titlestack div.caption2", [txt "Jan 1"])].

Definition played : string := "extendedepisodecell".
Definition unplayed : string := "extendedepisodecell usernewepisode".

(** Cells in page order: A (played), B (unplayed), C (unplayed),
    D (played). *)
Definition podcast_page : Element :=
  mkElement "" []
    [("img.art", [mkElement "" [("src", "art.jpg")] []]);
     ("h2.centertext", [txt "The Show"]);
     ("a.extendedepisodecell",
      [cell "/+A" played "A" "30 min left";
       cell "/+B" unplayed "B" "1 hr 2 min left";
       cell "/+C" unplayed "C" "30 min left";
       cell "/+D" played "D" ""])].

(** An episode page: the player is at [start] seconds. *)
Definition episode_page (start : string) : Element :=
  mkElement "" []
    [("audio#audioplayer",
      [mkElement "" [("data-start-time", start); ("data-item-id", "111");
                     ("data-sync-version", "7")] []]);
     ("div.centertext h2", [txt "An episode"]);
     ("div.centertext h3 a", [mkElement "The Show" [("href", "/show")] []]);
     ("div.fullart_container img", [mkElement "" [("src", "art.jpg")] []]);
     ("audio#audioplayer source",
      [mkElement "" [("src", "http://cdn/a.mp3"); ("type", "audio/mpeg")] []]);
     ("a#delete_episode_button",
      [mkElement "" [("href", "/podcasts/delete_item/111")] []])].

(** The page the site falls back to for an episode that is gone: no
    player. *)
Definition fallback_page : Element :=
  mkElement "" [] [("div.centertext h2", [txt "Overcast"])].

Definition site (url : string) : Element :=
  if String.eqb url "https://overcast.fm/show" then podcast_page
  else if String.eqb url "https://overcast.fm/+gone" then fallback_page
  else episode_page "100".

(** The object after a login that went through. *)
Definition fresh : Overcast :=
  {| episode_cache := [];
     session := [POST "https://overcast.fm/login"
                   [("email", PStr "me"); ("password", PStr "secret")]] |}.

Definition episode (name : string) (offset dur : Z) : Episode :=
  {| id := "https://overcast.fm/" ++ name; title := "An episode";
     podcast_title := "The Show"; offsetMillis := offset; duration := dur;
     data_item_id := "111"; data_sync_version := "7";
     albumArtURI := "art.jpg"; parsed_audio_uri := "http://cdn/a.mp3";
     audio_type := "audio/mpeg";
     delete_episode_uri := "/podcasts/delete_item/111" |}.

(** A cache that holds one episode of unknown duration, and one that
    holds an episode of known duration. *)
Definition cached_unknown : Overcast :=
  {| episode_cache := [("+E", episode "+E" 0 (-1))]; session := [] |}.

Definition cached_known : Overcast :=
  {| episode_cache := [("+A", episode "+A" 0 1800)]; session := [] |}.

Definition cached_gone : Overcast :=
  {| episode_cache := [("+A", episode "+A" 0 1800);
                       ("+gone", episode "+gone" 0 (-1))];
     session := [] |}.

(** Feed cells in page order: Zeta (unplayed), Alpha (played), Mu
    (unplayed), and a cell that is no link. *)
Definition feed_cell (href name : string) (indicator : bool) : Element :=
  mkElement name [("href", href)]
    [("div.title", [txt name]);
     ("img", [mkElement "" [("src", "art.jpg")] []]);
     ("svg.unplayed_indicator", if indicator then [txt ""] else [])].

Definition feed_page : Element :=
  mkElement "" []
    [("a.feedcell",
      [feed_cell "/zeta" "Zeta" true;
       feed_cell "/alpha" "Alpha" false;
       feed_cell "/mu" "Mu" true;
       mkElement "no link" [] []])].

Definition feed_site (url : string) : Element :=
  if String.eqb url "https://overcast.fm/podcasts" then feed_page
  else site url.

(** A podcast page whose first listed cell is no link. *)
Definition broken_list_page : Element :=
  mkElement "" []
    [("img.art", [mkElement "" [("src", "art.jpg")] []]);
     ("h2.centertext", [txt "The Show"]);
     ("a.extendedepisodecell",
      [mkElement "no link" [] [];
       cell "/+B" unplayed "B" "1 hr 2 min left"])].

Definition broken_site (url : string) : Element :=
  if String.eqb url "https://overcast.fm/show" then broken_list_page
  else site url.

End Demo.

(** ** Vocabulary of the statements *)

(** The requests a call sends: what it adds to the log of the session. *)
Definition requests_of {A} (m : M A) (st : Overcast) : list Request :=
  skipn (List.length (session st)) (session (snd (m st))).

(** The progress write and the delete write of an episode. *)
Definition progress_request (e : Episode) (seconds : Q) : Request :=
  POST ("https://overcast.fm/podcasts/set_progress/" ++ data_item_id e)
    [("p", PNum seconds); ("speed", PInt 0); ("v", PStr (data_sync_version e))].

Definition delete_request (e : Episode) : Request :=
  POST ("https://overcast.fm" ++ delete_episode_uri e) [].

(** [m] answers [r] and sends [l], whatever the state, and leaves the cache
    alone. *)
Definition sends {A} (m : M A) (r : result A) (l : list Request) : Prop :=
  forall st,
    m st = (r, {| episode_cache := episode_cache st;
                  session := (session st ++ l)%list |}).

Definition read_only {A} (m : M A) : Prop := exists r l, sends m r l.

Definition is_GET (r : Request) : Prop :=
  match r with
  | GET _ => True
  | POST _ _ => False
  end.

(** [m] sends nothing; [m] sends GETs only. *)
Definition silent {A} (m : M A) : Prop := exists r, sends m r [].

Definition only_gets {A} (m : M A) : Prop :=
  exists r l, sends m r l /\ Forall is_GET l.

(** The state with [episode_id] dropped from the cache. *)
Definition forget (episode_id : string) (st : Overcast) : Overcast :=
  {| episode_cache := OrderedDict.remove episode_id (episode_cache st);
     session := session st |}.

(** The states of the service object: built by [Overcast_init], changed by
    the methods that the handlers call. *)
Inductive reachable : Overcast -> Prop :=
| reach_init (ext : Externals) login_page email password self :
    Overcast_init login_page email password = Return self ->
    reachable self
| reach_get_episode_detail (ext : Externals) site episode_id offset st :
    reachable st ->
    reachable (snd (get_episode_detail site episode_id offset st))
| reach_update_episode_offset episode seconds st :
    reachable st ->
    reachable (snd (update_episode_offset episode seconds st))
| reach_get_all_podcast_episodes (ext : Externals) site podcast_id
    unplayed_only st :
    reachable st ->
    reachable
      (snd (get_all_podcast_episodes site podcast_id unplayed_only st)).

(** [get_episode_detail] on each of [ids] in turn; the state at the end. *)
Fixpoint visit {ext : Externals} (site : string -> Element)
    (ids : list string) (st : Overcast) : Overcast :=
  match ids with
  | [] => st
  | episode_id :: rest =>
      visit site rest (snd (get_episode_detail site episode_id (-1) st))
  end.

(** The class of a cell marks it unplayed. *)
Definition is_unplayed (cell : Element) : bool :=
  PyStr.mem "usernewepisode" (PyStr.split " " (attrib_get cell "class" "")).

(** The summary [get_all_podcast_episodes] builds of an unplayed cell. *)
Definition unplayed_summary {ext : Externals} (podcast_title art : string)
    (cell title_div caption : Element) : EpisodeSummary :=
  let summary :=
    PyStr.remove PyStr.newline (str_strip (text_content caption)) in
  {| s_id := PyStr.lstrip "/"
               (urljoin "https://overcast.fm" (attrib_get cell "href" ""));
     s_title := UNPLAYED_EPISODE_PREFIX
                ++ PyStr.remove PyStr.newline
                     (str_strip (text_content title_div));
     s_audio_type := "audio/mpeg";
     s_podcast_title := podcast_title;
     s_albumArtURI := art;
     s_summary := summary;
     s_releasedate := convert_release_date summary |}.

(** A listed cell of an unplayed episode, with the two elements its summary
    is read from; and a cell of a played one. *)
Definition unplayed_cell (cell title_div caption : Element) : Prop :=
  has_attrib cell "href" = true
  /\ is_unplayed cell = true
  /\ nth_error (cssselect cell "div.titlestack div.title") 0 = Some title_div
  /\ nth_error (cssselect cell "div.titlestack div.caption2") 0
     = Some caption.

Definition played_cell (cell : Element) : Prop :=
  has_attrib cell "href" = true /\ is_unplayed cell = false.

(** The podcast page shows its art and its title. *)
Definition podcast_header (doc : Element) (art title : string) : Prop :=
  exists img h2,
    nth_error (cssselect doc "img.art") 0 = Some img
    /\ assoc "src" (attrib img) = Some art
    /\ nth_error (cssselect doc "h2.centertext") 0 = Some h2
    /\ text_content h2 = title.

(** A cell of the episode list whose link does not name the episode: the
    search for the remaining time passes it over. *)
Definition passed_over (episode_id : string) (cell : Element) : Prop :=
  exists href,
    assoc "href" (attrib cell) = Some href
    /\ PyStr.contains episode_id href = false.

(** The first element of a selection, for a selection that has one. *)
Definition first_element (l : list Element) : Element :=
  hd (mkElement "" [] []) l.

(** The summary [get_all_podcast_episodes] builds of a cell that has its
    title and its caption. *)
Definition summary_of {ext : Externals} (podcast_title art : string)
    (cell : Element) : EpisodeSummary :=
  let summary :=
    PyStr.remove PyStr.newline
      (str_strip
         (text_content
            (first_element (cssselect cell "div.titlestack div.caption2")))) in
  {| s_id := PyStr.lstrip "/"
               (urljoin "https://overcast.fm" (attrib_get cell "href" ""));
     s_title := (if is_unplayed cell then UNPLAYED_EPISODE_PREFIX else "")
                ++ PyStr.remove PyStr.newline
                     (str_strip
                        (text_content
                           (first_element
                              (cssselect cell "div.titlestack div.title"))));
     s_audio_type := "audio/mpeg";
     s_podcast_title := podcast_title;
     s_albumArtURI := art;
     s_summary := summary;
     s_releasedate := convert_release_date summary |}.

(** A cell of the episode list that is a link has its title and its
    caption. *)
Definition episode_cell_ok (cell : Element) : Prop :=
  has_attrib cell "href" = true ->
  cssselect cell "div.titlestack div.title" <> []
  /\ cssselect cell "div.titlestack div.caption2" <> [].

(** The podcast [create_podcast_from_cell] builds of a feed cell that has
    its title and its image. *)
Definition podcast_of (cell : Element) : Podcast :=
  {| p_id := PyStr.lstrip "/" (attrib_get cell "href" "");
     p_title := text_content (first_element (cssselect cell "div.title"));
     p_albumArtURI :=
       attrib_get (first_element (cssselect cell "img")) "src" "" |}.

Definition feed_cell_ok (cell : Element) : Prop :=
  has_attrib cell "href" = true ->
  cssselect cell "div.title" <> []
  /\ has_attrib (first_element (cssselect cell "img")) "src" = true
  /\ cssselect cell "img" <> [].

(** The feed cell carries the mark of unplayed episodes. *)
Definition has_indicator (cell : Element) : bool :=
  (0 <? List.length (cssselect cell "svg.unplayed_indicator"))%nat.

(** The feed cells [get_all_podcasts] keeps. *)
Definition kept (unplayed_only : bool) (cell : Element) : bool :=
  has_attrib cell "href" && (negb unplayed_only || has_indicator cell).

Definition title_le (p q : Podcast) : Prop :=
  String.leb (p_title p) (p_title q) = true.

(** * Lists and the ordered dict *)

#[local] Open Scope list_scope.

Lemma purge_skipn (c : OrderedDict.t Episode) :
  purge c = skipn (List.length c - EPISODE_CACHE_SIZE) c.
Proof.
  unfold EPISODE_CACHE_SIZE.
  induction c as [|kv c IH]; [reflexivity|].
  cbn [purge]. unfold EPISODE_CACHE_SIZE.
  destruct (Nat.ltb_spec 5 (List.length (kv :: c))) as [Hlt|Hle];
    cbn [List.length] in *.
  - rewrite IH.
    replace (S (List.length c) - 5)%nat with (S (List.length c - 5)) by lia.
    reflexivity.
  - replace (S (List.length c) - 5)%nat with 0%nat by lia. reflexivity.
Qed.

Lemma purge_length (c : OrderedDict.t Episode) :
  (List.length (purge c) <= EPISODE_CACHE_SIZE)%nat.
Proof.
  rewrite purge_skipn, length_skipn. unfold EPISODE_CACHE_SIZE. lia.
Qed.

Lemma purge_keeps_last (c : OrderedDict.t Episode) kv :
  exists older, purge (c ++ [kv])%list = (older ++ [kv])%list.
Proof.
  rewrite purge_skipn, skipn_app.
  exists (skipn (List.length (c ++ [kv]) - EPISODE_CACHE_SIZE) c).
  f_equal. rewrite length_app. cbn [List.length]. unfold EPISODE_CACHE_SIZE.
  replace (List.length c + 1 - 5 - List.length c)%nat with 0%nat by lia.
  reflexivity.
Qed.

Lemma remove_length {V} k (d : OrderedDict.t V) :
  (List.length (OrderedDict.remove k d) <= List.length d)%nat.
Proof. apply filter_length_le. Qed.

Lemma get_remove {V} k (d : OrderedDict.t V) :
  OrderedDict.get k (OrderedDict.remove k d) = None.
Proof.
  induction d as [|[k' v] d IH]; [reflexivity|].
  cbn. destruct (String.eqb k k') eqn:E; cbn; [assumption|].
  rewrite E. exact IH.
Qed.

Lemma remove_absent {V} k (d : OrderedDict.t V) :
  OrderedDict.get k d = None -> OrderedDict.remove k d = d.
Proof.
  induction d as [|[k' v] d IH]; [reflexivity|].
  cbn. destruct (String.eqb k k') eqn:E; cbn; [discriminate|].
  intros H. f_equal. exact (IH H).
Qed.

Lemma setitem_absent {V} k (v : V) (d : OrderedDict.t V) :
  OrderedDict.get k d = None ->
  OrderedDict.setitem k v d = (d ++ [(k, v)])%list.
Proof.
  induction d as [|[k' v'] d IH]; [reflexivity|].
  cbn. destruct (String.eqb k k') eqn:E; [discriminate|].
  intros H. f_equal. exact (IH H).
Qed.

Lemma setitem_remove {V} k (v : V) (d : OrderedDict.t V) :
  OrderedDict.setitem k v (OrderedDict.remove k d)
  = (OrderedDict.remove k d ++ [(k, v)])%list.
Proof. apply setitem_absent, get_remove. Qed.

Lemma get_absent_keys {V} k (d : OrderedDict.t V) :
  ~ In k (OrderedDict.keys d) -> OrderedDict.get k d = None.
Proof.
  induction d as [|[k' v] d IH]; [reflexivity|].
  cbn. intros H. destruct (String.eqb_spec k k') as [->|_].
  - exfalso. apply H. now left.
  - apply IH. intros Hin. apply H. now right.
Qed.

(** * Calls that only read the site *)

Lemma same_state (st : Overcast) :
  {| episode_cache := episode_cache st;
     session := (session st ++ [])%list |} = st.
Proof. destruct st; cbn. now rewrite app_nil_r. Qed.

Lemma sends_ret {A} (a : A) : sends (ret a) (Return a) [].
Proof. intros st. unfold ret. now rewrite same_state. Qed.

Lemma sends_raise {A} (e : exn) : sends (@raise A e) (Raise e) [].
Proof. intros st. unfold raise. now rewrite same_state. Qed.

Lemma sends_send (r : Request) : sends (send r) (Return tt) [r].
Proof. intros st. reflexivity. Qed.

Lemma sends_bind_return {A B} (m : M A) (k : A -> M B) a l1 r l2 :
  sends m (Return a) l1 -> sends (k a) r l2 ->
  sends (bind m k) r (l1 ++ l2).
Proof.
  intros Hm Hk st. unfold bind. rewrite Hm, Hk. cbn.
  now rewrite app_assoc.
Qed.

Lemma sends_bind_raise {A B} (m : M A) (k : A -> M B) e l :
  sends m (Raise e) l -> sends (bind m k) (Raise e) l.
Proof. intros Hm st. unfold bind. now rewrite Hm. Qed.

Lemma read_only_ret {A} (a : A) : read_only (ret a).
Proof. eexists _, _. apply sends_ret. Qed.

Lemma read_only_raise {A} (e : exn) : read_only (@raise A e).
Proof. eexists _, _. apply sends_raise. Qed.

Lemma read_only_bind {A B} (m : M A) (k : A -> M B) :
  read_only m -> (forall a, read_only (k a)) -> read_only (bind m k).
Proof.
  intros (r & l & Hm) Hk. destruct r as [e|a].
  - eexists _, _. eapply sends_bind_raise, Hm.
  - destruct (Hk a) as (r' & l' & Hk').
    eexists _, _. eapply sends_bind_return; eassumption.
Qed.

Lemma read_only_getitem {A} (l : list A) n : read_only (getitem l n).
Proof.
  unfold getitem. destruct (nth_error l n);
    [apply read_only_ret | apply read_only_raise].
Qed.

Lemma read_only_attrib_item e name : read_only (attrib_item e name).
Proof.
  unfold attrib_item. destruct (assoc name (attrib e));
    [apply read_only_ret | apply read_only_raise].
Qed.

Lemma sends_get_html site url :
  sends (_get_html site url) (Return (site url)) [GET url].
Proof. intros st. reflexivity. Qed.

Lemma read_only_get_html site url : read_only (_get_html site url).
Proof. eexists _, _. apply sends_get_html. Qed.

Create HintDb read_only.

#[local] Hint Resolve read_only_ret read_only_raise read_only_getitem
  read_only_attrib_item read_only_get_html : read_only.

Ltac read_only_step :=
  match goal with
  | |- read_only (bind _ _) => apply read_only_bind; [|intro]
  | |- read_only (if ?b then _ else _) => destruct b
  | |- read_only (match ?o with Some _ => _ | None => _ end) => destruct o
  | |- read_only _ => solve [auto with read_only]
  end.

Section ReadOnly.

Context {ext : Externals} (site : string -> Element).

Lemma read_only_time_remaining_of_cells episode_id cells :
  read_only (time_remaining_of_cells episode_id cells).
Proof.
  induction cells as [|cell rest IH]; cbn [time_remaining_of_cells].
  - apply read_only_ret.
  - unfold get_episode_time_remaining_seconds_from_episode_cell.
    repeat read_only_step.
Qed.

Lemma read_only_get_episode_time_remaining_seconds episode_id doc :
  read_only (get_episode_time_remaining_seconds site episode_id doc).
Proof.
  unfold get_episode_time_remaining_seconds.
  repeat read_only_step. apply read_only_time_remaining_of_cells.
Qed.

(** The fetch sends the GET of the episode page first, and touches
    nothing but the log. *)
Lemma fetch_episode_detail_sends episode_id :
  exists r l,
    sends (fetch_episode_detail site episode_id) r
          (GET (urljoin "https://overcast.fm" episode_id) :: l).
Proof.
  unfold fetch_episode_detail.
  set (href := urljoin "https://overcast.fm" episode_id).
  pose proof (sends_get_html site href) as Hget.
  match goal with
  | |- exists r l, sends (bind _ ?k) _ _ =>
      assert (Hk : read_only (k (site href)))
  end.
  { cbv beta.
    repeat first [ apply read_only_get_episode_time_remaining_seconds
                 | read_only_step ]. }
  destruct Hk as (r & l & Hk).
  exists r, l. exact (sends_bind_return _ _ _ _ _ _ Hget Hk).
Qed.

(** A page without the player: the fetch answers [None]. *)
Lemma fetch_episode_detail_no_player episode_id :
  cssselect (site (urljoin "https://overcast.fm" episode_id))
    "audio#audioplayer" = [] ->
  sends (fetch_episode_detail site episode_id) (Return None)
        [GET (urljoin "https://overcast.fm" episode_id)].
Proof.
  intros Hno st. unfold fetch_episode_detail, _get_html, bind, send, ret.
  cbn. now rewrite Hno.
Qed.

End ReadOnly.

(** * The two paths of [get_episode_detail] *)

Section EpisodeCache.

Context {ext : Externals} (site : string -> Element).

(** Served from the cache: a cached record with a known duration, and an
    offset given. Nothing is sent. *)
Lemma get_episode_detail_cached st episode_id e offset :
  OrderedDict.get episode_id (episode_cache st) = Some e ->
  offset <> -1 -> duration e <> -1 ->
  let e' := if offset >? -1 then set_offsetMillis e offset else e in
  get_episode_detail site episode_id offset st
  = (Return (Some e'),
     {| episode_cache :=
          purge (OrderedDict.remove episode_id (episode_cache st)
                 ++ [(episode_id, e')]);
        session := session st |}).
Proof.
  intros Hget Hoff Hdur e'.
  unfold get_episode_detail, bind, get_cache, put_cache, ret.
  rewrite Hget.
  destruct (Z.eqb_spec offset (-1)) as [|_]; [contradiction|].
  destruct (Z.eqb_spec (duration e) (-1)) as [|_]; [contradiction|].
  cbn [orb]. subst e'.
  destruct (offset >? -1); cbn; now rewrite setitem_remove.
Qed.

(** Fetched: the id is not cached, or no offset is given, or the cached
    duration is unknown. The cached record, if any, is dropped and plays no
    part. *)
Lemma get_episode_detail_fetched st episode_id offset r l :
  (forall e, OrderedDict.get episode_id (episode_cache st) = Some e ->
             offset = -1 \/ duration e = -1) ->
  sends (fetch_episode_detail site episode_id) r l ->
  get_episode_detail site episode_id offset st
  = (match r with
     | Return (Some e) => Return (Some e)
     | Return None => Return None
     | Raise x => Raise x
     end,
     {| episode_cache :=
          match r with
          | Return (Some e) =>
              purge (OrderedDict.remove episode_id (episode_cache st)
                     ++ [(episode_id, e)])
          | _ => OrderedDict.remove episode_id (episode_cache st)
          end;
        session := session st ++ l |}).
Proof.
  intros Hmiss Hfetch.
  unfold get_episode_detail, bind, get_cache, put_cache, ret.
  destruct (OrderedDict.get episode_id (episode_cache st)) as [e|] eqn:Hget.
  - assert (Hinv : (offset =? -1) || (duration e =? -1) = true).
    { destruct (Hmiss e eq_refl) as [->| ->];
        [reflexivity | apply orb_true_r]. }
    rewrite Hinv, Hfetch. cbn.
    destruct r as [x|[e1|]]; cbn; [reflexivity| |reflexivity].
    now rewrite setitem_remove.
  - rewrite Hfetch. rewrite (remove_absent _ _ Hget).
    destruct r as [x|[e1|]]; cbn; [reflexivity| |reflexivity].
    now rewrite (setitem_absent _ _ _ Hget).
Qed.

(** Every call takes one of the two paths. *)
Lemma get_episode_detail_paths st episode_id offset :
  (exists e, OrderedDict.get episode_id (episode_cache st) = Some e
             /\ offset <> -1 /\ duration e <> -1)
  \/ (forall e, OrderedDict.get episode_id (episode_cache st) = Some e ->
                offset = -1 \/ duration e = -1).
Proof.
  destruct (OrderedDict.get episode_id (episode_cache st)) as [e|];
    [|right; discriminate].
  destruct (Z.eq_dec offset (-1)) as [Ho|Ho];
    [right; intros e' _; now left|].
  destruct (Z.eq_dec (duration e) (-1)) as [Hd|Hd].
  - right. intros e' [= <-]. now right.
  - left. now exists e.
Qed.

(** What a call leaves in the cache: the other entries, and the record it
    returns, last, after the purge. *)
Lemma get_episode_detail_cache st episode_id offset :
  let out := get_episode_detail site episode_id offset st in
  match fst out with
  | Return (Some e) =>
      episode_cache (snd out)
      = purge (OrderedDict.remove episode_id (episode_cache st)
               ++ [(episode_id, e)])
  | _ =>
      episode_cache (snd out)
      = OrderedDict.remove episode_id (episode_cache st)
  end.
Proof.
  destruct (get_episode_detail_paths st episode_id offset)
    as [(e & Hget & Ho & Hd)|Hmiss]; cbv zeta.
  - now rewrite (get_episode_detail_cached st episode_id e offset Hget Ho Hd).
  - destruct (fetch_episode_detail_sends site episode_id) as (r & l & Hf).
    rewrite (get_episode_detail_fetched st episode_id offset r _ Hmiss Hf).
    now destruct r as [x|[e1|]].
Qed.

(** Both paths keep the cache within its bound. *)
Lemma get_episode_detail_bound st episode_id offset :
  (List.length (episode_cache st) <= EPISODE_CACHE_SIZE)%nat ->
  (List.length
     (episode_cache (snd (get_episode_detail site episode_id offset st)))
   <= EPISODE_CACHE_SIZE)%nat.
Proof.
  intros Hlen.
  pose proof (get_episode_detail_cache st episode_id offset) as Hc.
  cbv zeta in Hc.
  destruct (fst (get_episode_detail site episode_id offset st))
    as [x|[e|]]; rewrite Hc; try apply purge_length;
    (eapply Nat.le_trans; [apply remove_length | exact Hlen]).
Qed.

End EpisodeCache.

(** * The episode cache: claims C2, C3, C8 *)

(** The examples run on the site of [Demo]. *)
#[local] Existing Instance Demo.externals.

Lemma skipn_length_app {A} (a b : list A) :
  skipn (List.length a) (a ++ b) = b.
Proof.
  rewrite skipn_app, skipn_all, Nat.sub_diag. reflexivity.
Qed.

Lemma requests_of_unchanged {A} (m : M A) st :
  session (snd (m st)) = session st -> requests_of m st = [].
Proof. unfold requests_of. intros ->. apply skipn_all. Qed.

Lemma requests_of_sends {A} (m : M A) st l :
  session (snd (m st)) = session st ++ l -> requests_of m st = l.
Proof. unfold requests_of. intros ->. apply skipn_length_app. Qed.

(** C2 (amended). For every episode id present in the cache with a known
    (non-sentinel) cached duration and every supplied offset (0 or more),
    [get_episode_detail] patches [offsetMillis] in the cached record and
    returns it as a cache hit: no request is sent, and the entry is moved to
    the most-recently-used (last) position. *)
Theorem get_episode_detail_patches_cached_offset
    {ext : Externals} site st episode_id e offset :
  OrderedDict.get episode_id (episode_cache st) = Some e ->
  duration e <> -1 ->
  0 <= offset ->
  let out := get_episode_detail site episode_id offset st in
  let e' := set_offsetMillis e offset in
  fst out = Return (Some e')
  /\ offsetMillis e' = offset
  /\ requests_of (get_episode_detail site episode_id offset) st = []
  /\ exists older, episode_cache (snd out) = older ++ [(episode_id, e')].
Proof.
  intros Hget Hdur Hoff out e'.
  assert (Ho : offset <> -1) by lia.
  pose proof (get_episode_detail_cached site st episode_id e offset
                Hget Ho Hdur) as E.
  cbv zeta in E.
  replace (offset >? -1) with true in E
    by (symmetry; apply Z.gtb_lt; lia).
  subst out e'. rewrite E. cbn [fst snd episode_cache].
  repeat split.
  - apply requests_of_unchanged. now rewrite E.
  - apply purge_keeps_last.
Qed.

Lemma get_episode_detail_patches_cached_offset_witness :
  exists older,
    episode_cache
      (snd (get_episode_detail Demo.site "+A" 5000 Demo.cached_known))
    = older ++ [("+A", set_offsetMillis (Demo.episode "+A" 0 1800) 5000)].
Proof.
  apply (get_episode_detail_patches_cached_offset
           Demo.site Demo.cached_known "+A" (Demo.episode "+A" 0 1800) 5000).
  - reflexivity.
  - cbn. lia.
  - lia.
Defined.

(** C2 as stated fails: a cached record whose duration is the unknown
    sentinel is not patched and returned; with an offset supplied the call
    drops it and fetches the pages again. *)
Lemma cached_unknown_duration_is_refetched :
  OrderedDict.get "+E" (episode_cache Demo.cached_unknown)
  = Some (Demo.episode "+E" 0 (-1))
  /\ fst (get_episode_detail Demo.site "+E" 5000 Demo.cached_unknown)
     = Return (Some (Demo.episode "+E" 100000 (-1)))
  /\ fst (get_episode_detail Demo.site "+E" 5000 Demo.cached_unknown)
     <> Return (Some (set_offsetMillis (Demo.episode "+E" 0 (-1)) 5000))
  /\ requests_of (get_episode_detail Demo.site "+E" 5000) Demo.cached_unknown
     = [GET "https://overcast.fm/+E"; GET "https://overcast.fm/show"].
Proof.
  repeat split; try reflexivity.
  vm_compute. intros H. discriminate H.
Qed.

(** C3 (amended). For every episode of known (non-sentinel) duration that
    is in the cache, a [get_episode_detail] without an updated offset is not
    a cache hit: the cached record is dropped and plays no part in the
    result, the episode page is fetched again, and the record parsed from
    it, when there is one, is returned and cached at the most-recently-used
    position. *)
Theorem get_episode_detail_without_offset_refetches
    {ext : Externals} site st episode_id cached :
  OrderedDict.get episode_id (episode_cache st) = Some cached ->
  duration cached <> -1 ->
  let out := get_episode_detail site episode_id (-1) st in
  fst out = fst (get_episode_detail site episode_id (-1) (forget episode_id st))
  /\ (exists rest,
        requests_of (get_episode_detail site episode_id (-1)) st
        = GET (urljoin "https://overcast.fm" episode_id) :: rest)
  /\ match fst out with
     | Return (Some e) =>
         exists older, episode_cache (snd out) = older ++ [(episode_id, e)]
     | _ => OrderedDict.get episode_id (episode_cache (snd out)) = None
     end.
Proof.
  intros _ _.
  destruct (fetch_episode_detail_sends site episode_id) as (r & l & Hf).
  assert (E : forall st',
             get_episode_detail site episode_id (-1) st' = _)
    by (intros st';
        exact (get_episode_detail_fetched site st' episode_id (-1) r _
                 (fun _ _ => or_introl eq_refl) Hf)).
  cbv zeta. rewrite !E. cbn [fst snd episode_cache].
  split; [reflexivity|]. split.
  - exists l. apply requests_of_sends. now rewrite E.
  - destruct r as [x|[e|]]; try apply get_remove. apply purge_keeps_last.
Qed.

Lemma get_episode_detail_without_offset_refetches_witness :
  exists rest,
    requests_of (get_episode_detail Demo.site "+A" (-1)) Demo.cached_known
    = GET (urljoin "https://overcast.fm" "+A") :: rest.
Proof.
  apply (get_episode_detail_without_offset_refetches
           Demo.site Demo.cached_known "+A" (Demo.episode "+A" 0 1800)).
  - reflexivity.
  - cbn. lia.
Defined.

(** C3 as stated fails: the cached record of known duration is not what
    comes back; the pages are fetched again and the record parsed from them
    is returned. *)
Lemma cached_known_duration_is_refetched :
  OrderedDict.get "+A" (episode_cache Demo.cached_known)
  = Some (Demo.episode "+A" 0 1800)
  /\ fst (get_episode_detail Demo.site "+A" (-1) Demo.cached_known)
     = Return (Some (Demo.episode "+A" 100000 1900))
  /\ fst (get_episode_detail Demo.site "+A" (-1) Demo.cached_known)
     <> Return (Some (Demo.episode "+A" 0 1800))
  /\ requests_of (get_episode_detail Demo.site "+A" (-1)) Demo.cached_known
     = [GET "https://overcast.fm/+A"; GET "https://overcast.fm/show"].
Proof.
  repeat split; try reflexivity.
  vm_compute. intros H. discriminate H.
Qed.

(** C8. When the page fetched for an episode id has no audio-player element,
    [get_episode_detail] returns [None] and raises nothing, and afterwards
    the cache holds no entry for that id; an entry of unknown duration that
    was cached for the id is removed. The page is fetched when the id is not
    cached, when no offset is given, or when the cached duration is
    unknown. *)
Theorem get_episode_detail_without_player_is_absent
    {ext : Externals} site st episode_id offset :
  cssselect (site (urljoin "https://overcast.fm" episode_id))
    "audio#audioplayer" = [] ->
  (forall e, OrderedDict.get episode_id (episode_cache st) = Some e ->
             offset = -1 \/ duration e = -1) ->
  let out := get_episode_detail site episode_id offset st in
  fst out = Return None
  /\ OrderedDict.get episode_id (episode_cache (snd out)) = None
  /\ requests_of (get_episode_detail site episode_id offset) st
     = [GET (urljoin "https://overcast.fm" episode_id)].
Proof.
  intros Hno Hmiss out. subst out.
  pose proof (get_episode_detail_fetched site st episode_id offset _ _ Hmiss
                (fetch_episode_detail_no_player site episode_id Hno)) as E.
  rewrite E. cbn [fst snd episode_cache].
  repeat split.
  - apply get_remove.
  - apply requests_of_sends. now rewrite E.
Qed.

Lemma get_episode_detail_without_player_is_absent_witness :
  OrderedDict.get "+gone" (episode_cache Demo.cached_gone)
  = Some (Demo.episode "+gone" 0 (-1))
  /\ fst (get_episode_detail Demo.site "+gone" 5000 Demo.cached_gone)
     = Return None
  /\ OrderedDict.get "+gone"
       (episode_cache
          (snd (get_episode_detail Demo.site "+gone" 5000 Demo.cached_gone)))
     = None.
Proof.
  split; [reflexivity|].
  assert (H := get_episode_detail_without_player_is_absent
                 Demo.site Demo.cached_gone "+gone" 5000).
  cbv zeta in H.
  destruct H as (H1 & H2 & _).
  - reflexivity.
  - intros e He. vm_compute in He. injection He as <-. right. reflexivity.
  - split; assumption.
Defined.

(** * The reconciliation: claims C1, C4, C5, C7 *)

(** What [update_episode_offset] does to an episode record: the progress
    write, then the delete write when the comparison holds; the cache is as
    before. *)
Lemma update_episode_offset_run st e seconds :
  update_episode_offset (Some e) seconds st
  = (Return tt,
     {| episode_cache := episode_cache st;
        session :=
          session st
          ++ progress_request e seconds
             :: (if Qle_bool (inject_Z (duration e - 60)) seconds
                 then [delete_request e] else []) |}).
Proof.
  unfold update_episode_offset, bind, send, delete_episode, ret,
    progress_request, delete_request.
  destruct (Qle_bool (inject_Z (duration e - 60)) seconds);
    cbn [episode_cache session]; [|reflexivity].
  unfold send. cbn [episode_cache session]. now rewrite <- app_assoc.
Qed.

Lemma update_episode_offset_requests st e seconds :
  requests_of (update_episode_offset (Some e) seconds) st
  = progress_request e seconds
    :: (if Qle_bool (inject_Z (duration e - 60)) seconds
        then [delete_request e] else []).
Proof.
  apply requests_of_sends. now rewrite update_episode_offset_run.
Qed.

Lemma delete_is_not_progress e e' seconds :
  delete_request e <> progress_request e' seconds.
Proof. unfold delete_request, progress_request. intros H. discriminate H. Qed.

Lemma delete_sent_iff st e seconds :
  In (delete_request e)
     (requests_of (update_episode_offset (Some e) seconds) st)
  <-> (inject_Z (duration e - 60) <= seconds)%Q.
Proof.
  rewrite update_episode_offset_requests, <- Qle_bool_iff.
  destruct (Qle_bool (inject_Z (duration e - 60)) seconds); cbn.
  - split; [reflexivity|]. intros _. right. now left.
  - split; [|discriminate].
    intros [H|[]]. symmetry in H. now apply delete_is_not_progress in H.
Qed.

(** C1 fails on the code: with the duration at the unknown sentinel (-1) the
    comparison is against -61, so every offset from -61 up, hence every
    playback position, has the delete sent after the progress write. *)
Theorem update_episode_offset_unknown_duration_deletes st e seconds :
  duration e = -1 ->
  (-61 <= seconds)%Q ->
  requests_of (update_episode_offset (Some e) seconds) st
  = [progress_request e seconds; delete_request e].
Proof.
  intros Hd Hs. rewrite update_episode_offset_requests, Hd.
  change (inject_Z (-1 - 60)) with (-61)%Q.
  apply Qle_bool_iff in Hs. now rewrite Hs.
Qed.

Lemma update_episode_offset_unknown_duration_deletes_witness :
  requests_of
    (update_episode_offset (Some (Demo.episode "+E" 0 (-1))) 0%Q) Demo.fresh
  = [progress_request (Demo.episode "+E" 0 (-1)) 0%Q;
     delete_request (Demo.episode "+E" 0 (-1))].
Proof.
  apply (update_episode_offset_unknown_duration_deletes
           Demo.fresh (Demo.episode "+E" 0 (-1)) 0%Q).
  - reflexivity.
  - vm_compute. discriminate.
Defined.

(** The same through a handler: the page of "+E" gives no remaining time, so
    the record has duration -1; the first progress report, at 5 seconds,
    has the episode deleted. *)
Lemma reportPlaySeconds_unknown_duration_deletes :
  fst (get_episode_detail Demo.site "+E" 5000 Demo.fresh)
  = Return (Some (Demo.episode "+E" 100000 (-1)))
  /\ requests_of (reportPlaySeconds Demo.site "episodes/+E" 30 5000 "ctx")
       Demo.fresh
     = [GET "https://overcast.fm/+E"; GET "https://overcast.fm/show";
        progress_request (Demo.episode "+E" 100000 (-1)) (true_div 5000 1000);
        delete_request (Demo.episode "+E" 100000 (-1))].
Proof. split; reflexivity. Qed.

(** C4. For every episode of known (non-sentinel) duration,
    [update_episode_offset] sends the remote delete if and only if the
    reported offset in seconds is at least the duration minus 60; with a
    duration of 1800, an offset of 1750 has the delete sent and an offset of
    1700 has not. *)
Theorem update_episode_offset_deletes_iff st e :
  duration e <> -1 ->
  (forall seconds,
      In (delete_request e)
         (requests_of (update_episode_offset (Some e) seconds) st)
      <-> (inject_Z (duration e - 60) <= seconds)%Q)
  /\ (duration e = 1800 ->
      In (delete_request e)
         (requests_of (update_episode_offset (Some e) (inject_Z 1750)) st)
      /\ ~ In (delete_request e)
           (requests_of (update_episode_offset (Some e) (inject_Z 1700)) st)).
Proof.
  intros _. split; [intros seconds; apply delete_sent_iff|].
  intros Hd. rewrite !delete_sent_iff, Hd. split.
  - vm_compute. discriminate.
  - vm_compute. intros H. now apply H.
Qed.

Lemma update_episode_offset_deletes_iff_witness :
  In (delete_request (Demo.episode "+A" 0 1800))
     (requests_of
        (update_episode_offset (Some (Demo.episode "+A" 0 1800))
           (inject_Z 1750)) Demo.fresh)
  /\ ~ In (delete_request (Demo.episode "+A" 0 1800))
         (requests_of
            (update_episode_offset (Some (Demo.episode "+A" 0 1800))
               (inject_Z 1700)) Demo.fresh).
Proof.
  apply (update_episode_offset_deletes_iff
           Demo.fresh (Demo.episode "+A" 0 1800)).
  - cbn. lia.
  - reflexivity.
Defined.

(** C5 (amended). Whenever the reconciliation sends the remote delete of an
    episode, it leaves the episode cache as it was: an entry cached for that
    episode's id is still in the cache after the operation. *)
Theorem update_episode_offset_keeps_cache st e seconds :
  In (delete_request e)
     (requests_of (update_episode_offset (Some e) seconds) st) ->
  episode_cache (snd (update_episode_offset (Some e) seconds st))
  = episode_cache st.
Proof. intros _. now rewrite update_episode_offset_run. Qed.

Lemma update_episode_offset_keeps_cache_witness :
  episode_cache
    (snd (update_episode_offset (Some (Demo.episode "+A" 0 1800))
            (inject_Z 1750) Demo.cached_known))
  = episode_cache Demo.cached_known.
Proof.
  apply (update_episode_offset_keeps_cache Demo.cached_known
           (Demo.episode "+A" 0 1800) (inject_Z 1750)).
  vm_compute. right. left. reflexivity.
Defined.

(** C5 as stated fails: an episode of duration 1800 is cached, its offset is
    reported at 1750, the delete is sent, and the cache still holds the
    entry. *)
Lemma deleted_episode_stays_cached :
  let out :=
    update_episode_offset (Some (Demo.episode "+A" 0 1800)) (inject_Z 1750)
      Demo.cached_known in
  In (delete_request (Demo.episode "+A" 0 1800))
     (requests_of
        (update_episode_offset (Some (Demo.episode "+A" 0 1800))
           (inject_Z 1750)) Demo.cached_known)
  /\ OrderedDict.get "+A" (episode_cache (snd out))
     = Some (Demo.episode "+A" 0 1800)
  /\ OrderedDict.get "+A" (episode_cache (snd out)) <> None.
Proof.
  cbv zeta. repeat split.
  - vm_compute. right. left. reflexivity.
  - vm_compute. discriminate.
Qed.

(** C7. For every episode record and every reported offset,
    [update_episode_offset] sends the remote progress write, built from the
    episode's item token and sync version, whether the duration is known or
    the unknown sentinel, and sends it first: the delete, when there is one,
    comes after it. *)
Theorem update_episode_offset_reports_first st e seconds :
  exists rest,
    requests_of (update_episode_offset (Some e) seconds) st
    = progress_request e seconds :: rest
    /\ (rest = [] \/ rest = [delete_request e])
    /\ progress_request e seconds
       = POST ("https://overcast.fm/podcasts/set_progress/" ++ data_item_id e)
           [("p", PNum seconds); ("speed", PInt 0);
            ("v", PStr (data_sync_version e))].
Proof.
  rewrite update_episode_offset_requests.
  eexists. split; [reflexivity|]. split; [|reflexivity].
  destruct (Qle_bool (inject_Z (duration e - 60)) seconds); auto.
Qed.

(** * The bound and the eviction order: claim C6 *)

Lemma sends_cache {A} (m : M A) st :
  read_only m -> episode_cache (snd (m st)) = episode_cache st.
Proof. intros (r & l & H). now rewrite H. Qed.

Lemma read_only_episodes_of_cells {ext : Externals}
    podcast_title art unplayed_only cells :
  forall episodes,
    read_only (episodes_of_cells podcast_title art unplayed_only
                 cells episodes).
Proof.
  induction cells as [|cell rest IH]; intros episodes;
    cbn [episodes_of_cells].
  - apply read_only_ret.
  - apply read_only_bind; [|intro; apply IH].
    unfold episode_of_cell. repeat read_only_step.
Qed.

Lemma read_only_get_all_podcast_episodes {ext : Externals}
    site podcast_id unplayed_only :
  read_only (get_all_podcast_episodes site podcast_id unplayed_only).
Proof.
  unfold get_all_podcast_episodes.
  repeat first [ apply read_only_episodes_of_cells | read_only_step ].
Qed.

Lemma update_episode_offset_cache episode seconds st :
  episode_cache (snd (update_episode_offset episode seconds st))
  = episode_cache st.
Proof.
  destruct episode as [e|]; [|reflexivity].
  now rewrite update_episode_offset_run.
Qed.

(** The bound is an invariant of the service object. *)
Lemma reachable_bound st :
  reachable st ->
  (List.length (episode_cache st) <= EPISODE_CACHE_SIZE)%nat.
Proof.
  induction 1 as [ext page email password self Hinit
                 | ext site episode_id offset st _ IH
                 | episode seconds st _ IH
                 | ext site podcast_id unplayed_only st _ IH].
  - unfold Overcast_init in Hinit.
    destruct (cssselect page "div.alert"); [|discriminate].
    injection Hinit as <-. cbn. unfold EPISODE_CACHE_SIZE. lia.
  - now apply get_episode_detail_bound.
  - now rewrite update_episode_offset_cache.
  - rewrite sends_cache; [exact IH|].
    apply read_only_get_all_podcast_episodes.
Qed.

Lemma skipn_window {A} (L rest : list A) :
  let recent := skipn (List.length L - EPISODE_CACHE_SIZE) L in
  skipn (List.length (recent ++ rest) - EPISODE_CACHE_SIZE) (recent ++ rest)
  = skipn (List.length (L ++ rest) - EPISODE_CACHE_SIZE) (L ++ rest).
Proof.
  unfold EPISODE_CACHE_SIZE. cbv zeta.
  set (n := (List.length L - 5)%nat).
  assert (E : skipn n L ++ rest = skipn n (L ++ rest)).
  { rewrite skipn_app. replace (n - List.length L)%nat with 0%nat by lia.
    reflexivity. }
  rewrite E, skipn_skipn, length_skipn, length_app.
  f_equal. lia.
Qed.

Lemma NoDup_skipn_app {A} n (a b : list A) :
  NoDup (a ++ b) -> NoDup (skipn n a ++ b).
Proof.
  rewrite <- (firstn_skipn n a) at 1. rewrite <- app_assoc.
  apply NoDup_app_remove_l.
Qed.

Lemma keys_purge (c : OrderedDict.t Episode) :
  OrderedDict.keys (purge c)
  = skipn (List.length (OrderedDict.keys c) - EPISODE_CACHE_SIZE)
      (OrderedDict.keys c).
Proof.
  unfold OrderedDict.keys. now rewrite purge_skipn, skipn_map, length_map.
Qed.

(** Fetching ids that are new to the cache, one after the other: the cache
    ends with the last [EPISODE_CACHE_SIZE] of them, in the order of the
    calls. *)
Lemma visit_keys {ext : Externals} site ids :
  forall st,
    (List.length (episode_cache st) <= EPISODE_CACHE_SIZE)%nat ->
    NoDup (OrderedDict.keys (episode_cache st) ++ ids) ->
    (forall i, In i ids ->
               forall st', exists e,
                 fst (fetch_episode_detail site i st') = Return (Some e)) ->
    let all := OrderedDict.keys (episode_cache st) ++ ids in
    OrderedDict.keys (episode_cache (visit site ids st))
    = skipn (List.length all - EPISODE_CACHE_SIZE) all.
Proof.
  induction ids as [|i rest IH]; intros st Hlen Hnd Hok; cbv zeta.
  - cbn [visit]. rewrite app_nil_r.
    unfold OrderedDict.keys. rewrite length_map.
    replace (List.length (episode_cache st) - EPISODE_CACHE_SIZE)%nat
      with 0%nat by lia.
    reflexivity.
  - cbn [visit].
    assert (Hfresh : OrderedDict.get i (episode_cache st) = None).
    { apply get_absent_keys. intros Hin.
      apply NoDup_remove_2 in Hnd. apply Hnd, in_or_app. now left. }
    destruct (fetch_episode_detail_sends site i) as (r & l & Hf).
    destruct (Hok i (or_introl eq_refl) st) as (e & He).
    rewrite Hf in He. cbn in He. subst r.
    pose proof (get_episode_detail_fetched site st i (-1) _ _
                  (fun _ _ => or_introl eq_refl) Hf) as E.
    set (st1 := snd (get_episode_detail site i (-1) st)).
    assert (Hc1 : episode_cache st1 = purge (episode_cache st ++ [(i, e)])).
    { subst st1. rewrite E. cbn [snd episode_cache].
      now rewrite (remove_absent _ _ Hfresh). }
    assert (Hk1 : OrderedDict.keys (episode_cache st1)
                  = skipn (List.length
                             (OrderedDict.keys (episode_cache st) ++ [i])
                           - EPISODE_CACHE_SIZE)
                      (OrderedDict.keys (episode_cache st) ++ [i])).
    { rewrite Hc1, keys_purge. unfold OrderedDict.keys.
      now rewrite map_app. }
    assert (Hnd' : NoDup ((OrderedDict.keys (episode_cache st) ++ [i])
                          ++ rest))
      by now rewrite <- app_assoc.
    specialize (IH st1).
    cbv zeta in IH. rewrite IH.
    + rewrite Hk1, skipn_window. now rewrite <- app_assoc.
    + rewrite Hc1. apply purge_length.
    + rewrite Hk1. now apply NoDup_skipn_app.
    + intros j Hj. apply Hok. now right.
Qed.

(** C6. After every [get_episode_detail] call the episode cache holds at
    most 5 entries; a call that returns a record leaves the other entries
    followed by that record, less the oldest ones in excess of 5 (evicted
    from the front until the size is within the capacity); and fetching 6
    distinct episodes into an empty cache leaves exactly 5 entries, the
    first of the six, the least recently used, evicted. *)
Theorem episode_cache_is_bounded_lru {ext : Externals} site :
  (forall st episode_id offset,
      reachable st ->
      (List.length
         (episode_cache (snd (get_episode_detail site episode_id offset st)))
       <= 5)%nat)
  /\ (forall st episode_id offset e,
         fst (get_episode_detail site episode_id offset st)
         = Return (Some e) ->
         let inserted :=
           OrderedDict.remove episode_id (episode_cache st)
           ++ [(episode_id, e)] in
         episode_cache (snd (get_episode_detail site episode_id offset st))
         = skipn (List.length inserted - 5) inserted)
  /\ (forall st ids,
         episode_cache st = [] ->
         NoDup ids ->
         List.length ids = 6%nat ->
         (forall i, In i ids ->
                    forall st', exists e,
                      fst (fetch_episode_detail site i st')
                      = Return (Some e)) ->
         OrderedDict.keys (episode_cache (visit site ids st)) = tl ids
         /\ List.length (episode_cache (visit site ids st)) = 5%nat).
Proof.
  split; [|split].
  - intros st episode_id offset Hr.
    apply (get_episode_detail_bound site), reachable_bound, Hr.
  - intros st episode_id offset e He.
    pose proof (get_episode_detail_cache site st episode_id offset) as Hc.
    cbv zeta in Hc. rewrite He in Hc. cbv zeta. rewrite Hc.
    apply purge_skipn.
  - intros st ids Hempty Hnd Hlen Hok.
    assert (Hk : OrderedDict.keys (episode_cache (visit site ids st))
                 = tl ids).
    { pose proof (visit_keys site ids st) as H.
      rewrite Hempty in H. cbn [OrderedDict.keys map app List.length] in H.
      rewrite H; [| unfold EPISODE_CACHE_SIZE; lia | assumption | assumption].
      rewrite Hlen. destruct ids; [discriminate|]. reflexivity. }
    split; [exact Hk|].
    apply (f_equal (@List.length _)) in Hk.
    unfold OrderedDict.keys in Hk. rewrite length_map in Hk. rewrite Hk.
    destruct ids; [discriminate|]. cbn in Hlen |- *. lia.
Qed.

Lemma episode_cache_is_bounded_lru_witness :
  OrderedDict.keys
    (episode_cache
       (visit Demo.site ["+A"; "+B"; "+C"; "+D"; "+E"; "+F"] Demo.fresh))
  = ["+B"; "+C"; "+D"; "+E"; "+F"]
  /\ (List.length
        (episode_cache
           (snd (get_episode_detail Demo.site "+A" (-1) Demo.fresh)))
      <= 5)%nat.
Proof.
  destruct (episode_cache_is_bounded_lru Demo.site) as (Hbound & _ & Hsix).
  split.
  - apply (Hsix Demo.fresh ["+A"; "+B"; "+C"; "+D"; "+E"; "+F"]).
    + reflexivity.
    + repeat constructor; cbn; intuition discriminate.
    + reflexivity.
    + intros i Hi st'.
      destruct (fetch_episode_detail_sends Demo.site i) as (r & l & Hf).
      rewrite Hf. cbn [fst].
      cbn in Hi.
      destruct Hi as [<-|[<-|[<-|[<-|[<-|[<-|[]]]]]]];
        specialize (Hf Demo.fresh); vm_compute in Hf;
        injection Hf as <- _; eexists; reflexivity.
  - apply Hbound.
    apply (reach_init Demo.externals (mkElement "" [] []) "me" "secret").
    reflexivity.
Defined.

(** * The listing of unplayed episodes: claim C9 *)

Section Listing.

Context {ext : Externals}.
Variables podcast_title art : string.

Lemma episode_of_cell_played cell episodes st :
  is_unplayed cell = false ->
  episode_of_cell podcast_title art true cell episodes st
  = (Return episodes, st).
Proof.
  unfold episode_of_cell, is_unplayed. intros ->.
  now destruct (has_attrib cell "href").
Qed.

Lemma episode_of_cell_unplayed cell title_div caption episodes st :
  unplayed_cell cell title_div caption ->
  episode_of_cell podcast_title art true cell episodes st
  = (Return (unplayed_summary podcast_title art cell title_div caption
             :: episodes), st).
Proof.
  unfold unplayed_cell, is_unplayed. intros (Hhref & Hnew & Ht & Hc).
  unfold episode_of_cell, getitem, bind, ret.
  now rewrite Hhref, Hnew, Ht, Hc.
Qed.

End Listing.

(** C9 (amended). For every podcast page whose episode cells appear in page
    order [A (played); B (unplayed); C (unplayed); D (played)],
    [get_all_podcast_episodes] with [unplayed_only] set yields the sequence
    [C; B]: each unplayed episode is inserted at the front in encounter
    order, so the unplayed episodes appear in reversed relative order, and
    the played episodes are left out. *)
Theorem get_all_podcast_episodes_unplayed_only
    {ext : Externals} site podcast_id st art podcast_title
    A B C D titleB captionB titleC captionC :
  let doc := site (urljoin "https://overcast.fm" podcast_id) in
  podcast_header doc art podcast_title ->
  cssselect doc "a.extendedepisodecell" = [A; B; C; D] ->
  played_cell A ->
  unplayed_cell B titleB captionB ->
  unplayed_cell C titleC captionC ->
  played_cell D ->
  fst (get_all_podcast_episodes site podcast_id true st)
  = Return [unplayed_summary podcast_title art C titleC captionC;
            unplayed_summary podcast_title art B titleB captionB].
Proof.
  intros doc (img & h2 & Himg & Hsrc & Hh2 & Htitle) Hcells
    (_ & HA) HB HC (_ & HD).
  subst doc.
  unfold get_all_podcast_episodes, _get_html, getitem, attrib_item,
    bind, send, ret.
  rewrite Himg, Hsrc, Hh2, Hcells, Htitle.
  cbn [episodes_of_cells]. unfold bind.
  rewrite (episode_of_cell_played _ _ A _ _ HA).
  rewrite (episode_of_cell_unplayed _ _ B _ _ _ _ HB).
  rewrite (episode_of_cell_unplayed _ _ C _ _ _ _ HC).
  rewrite (episode_of_cell_played _ _ D _ _ HD).
  reflexivity.
Qed.

Lemma get_all_podcast_episodes_unplayed_only_witness :
  fst (get_all_podcast_episodes Demo.site "show" true Demo.fresh)
  = Return
      [unplayed_summary "The Show" "art.jpg"
         (Demo.cell "/+C" Demo.unplayed "C" "30 min left")
         (Demo.txt "C") (Demo.txt "Jan 1");
       unplayed_summary "The Show" "art.jpg"
         (Demo.cell "/+B" Demo.unplayed "B" "1 hr 2 min left")
         (Demo.txt "B") (Demo.txt "Jan 1")].
Proof.
  apply (get_all_podcast_episodes_unplayed_only Demo.site "show" Demo.fresh
           "art.jpg" "The Show"
           (Demo.cell "/+A" Demo.played "A" "30 min left")
           (Demo.cell "/+B" Demo.unplayed "B" "1 hr 2 min left")
           (Demo.cell "/+C" Demo.unplayed "C" "30 min left")
           (Demo.cell "/+D" Demo.played "D" "")).
  - eexists _, _. repeat split; reflexivity.
  - reflexivity.
  - split; reflexivity.
  - repeat split; reflexivity.
  - repeat split; reflexivity.
  - split; reflexivity.
Defined.

(** C9 as stated fails: on the page with cells A (played), B (unplayed),
    C (unplayed), D (played) the listing of unplayed episodes has two
    entries, C then B; A and D are not in it. *)
Lemma unplayed_listing_leaves_out_played :
  exists episodes,
    fst (get_all_podcast_episodes Demo.site "show" true Demo.fresh)
    = Return episodes
    /\ map s_title episodes = ["* C"; "* B"]
    /\ map s_id episodes
       = ["https://overcast.fm/+C"; "https://overcast.fm/+B"]
    /\ map s_id episodes
       <> ["https://overcast.fm/+C"; "https://overcast.fm/+B";
           "https://overcast.fm/+A"; "https://overcast.fm/+D"].
Proof.
  eexists. split; [vm_compute; reflexivity|].
  repeat split. cbn. discriminate.
Qed.

(** * The handlers on an absent episode: claim C10 *)

Section Handlers.

Context {ext : Externals} (site : string -> Element).

(** [update_episode_offset] reads ['duration'] of its argument before it
    sends anything. *)
Lemma update_episode_offset_absent seconds st :
  update_episode_offset None seconds st = (Raise TypeError, st).
Proof. reflexivity. Qed.

Lemma reportPlaySeconds_absent id_ seconds offset contextId st :
  fst (get_episode_detail site (last_segment id_) offset st) = Return None ->
  fst (reportPlaySeconds site id_ seconds offset contextId st)
  = Raise TypeError.
Proof.
  unfold reportPlaySeconds, bind.
  destruct (get_episode_detail site (last_segment id_) offset st)
    as [r st']; cbn [fst].
  now intros ->.
Qed.

Lemma reportPlayStatus_absent id_ status offset contextId st :
  fst (get_episode_detail site (last_segment id_) offset st) = Return None ->
  fst (reportPlayStatus site id_ status offset contextId st)
  = Raise TypeError.
Proof.
  unfold reportPlayStatus, bind.
  destruct (get_episode_detail site (last_segment id_) offset st)
    as [r st']; cbn [fst].
  now intros ->.
Qed.

Lemma setPlayedSeconds_absent id_ seconds offset contextId st :
  fst (get_episode_detail site (last_segment id_) offset st) = Return None ->
  fst (setPlayedSeconds site id_ seconds offset contextId st)
  = Raise TypeError.
Proof.
  unfold setPlayedSeconds, bind.
  destruct (get_episode_detail site (last_segment id_) offset st)
    as [r st']; cbn [fst].
  now intros ->.
Qed.

Lemma getMediaURI_absent id_ collection episode_id st :
  PyStr.rsplit1 "/" id_ = Some (collection, episode_id) ->
  fst (get_episode_detail site episode_id (-1) st) = Return None ->
  fst (getMediaURI site id_ st) = Raise TypeError.
Proof.
  unfold getMediaURI, bind. intros ->.
  destruct (get_episode_detail site episode_id (-1) st)
    as [r st']; cbn [fst].
  now intros ->.
Qed.

End Handlers.

(** C10. There is an input at the service boundary, the id of an episode
    whose fetched page has no audio-player element, for which
    [get_episode_detail] returns [None] and [reportPlaySeconds],
    [reportPlayStatus], [setPlayedSeconds] and [getMediaURI] each read a key
    of that [None] and raise (a [TypeError]) instead of returning a
    response. *)
Theorem handlers_raise_on_absent_episode :
  exists (ext : Externals) site st id_ seconds offset status contextId,
    cssselect (site (urljoin "https://overcast.fm" (last_segment id_)))
      "audio#audioplayer" = []
    /\ fst (get_episode_detail site (last_segment id_) offset st)
       = Return None
    /\ fst (get_episode_detail site (last_segment id_) (-1) st)
       = Return None
    /\ fst (reportPlaySeconds site id_ seconds offset contextId st)
       = Raise TypeError
    /\ fst (reportPlayStatus site id_ status offset contextId st)
       = Raise TypeError
    /\ fst (setPlayedSeconds site id_ seconds offset contextId st)
       = Raise TypeError
    /\ fst (getMediaURI site id_ st) = Raise TypeError.
Proof.
  exists Demo.externals, Demo.site, Demo.fresh, "episodes/+gone",
    30, 5000, "PLAYING", "ctx".
  split; [reflexivity|]. split; [reflexivity|]. split; [reflexivity|].
  split; [|split; [|split]].
  - apply (reportPlaySeconds_absent Demo.site). reflexivity.
  - apply (reportPlayStatus_absent Demo.site). reflexivity.
  - apply (setPlayedSeconds_absent Demo.site). reflexivity.
  - apply (getMediaURI_absent Demo.site _ "episodes" "+gone"); reflexivity.
Qed.

(** * More on the episode cache *)

Lemma get_app {V} k (a b : OrderedDict.t V) :
  OrderedDict.get k (a ++ b)
  = match OrderedDict.get k a with
    | Some v => Some v
    | None => OrderedDict.get k b
    end.
Proof.
  induction a as [|[k' v] a IH]; [reflexivity|].
  cbn. destruct (String.eqb k k'); [reflexivity | exact IH].
Qed.

Lemma get_in_keys {V} k (v : V) (d : OrderedDict.t V) :
  OrderedDict.get k d = Some v -> In k (OrderedDict.keys d).
Proof.
  induction d as [|[k' v'] d IH]; [discriminate|].
  cbn. destruct (String.eqb_spec k k') as [->|_]; [now left|].
  intros H. right. exact (IH H).
Qed.

Lemma get_skipn_absent {V} k n (d : OrderedDict.t V) :
  OrderedDict.get k d = None -> OrderedDict.get k (skipn n d) = None.
Proof.
  revert d. induction n as [|n IH]; intros [|[k' v] d]; cbn; try easy.
  destruct (String.eqb k k'); [discriminate | apply IH].
Qed.

Lemma get_skipn_nodup {V} k (v : V) n (d : OrderedDict.t V) :
  NoDup (OrderedDict.keys d) ->
  OrderedDict.get k (skipn n d) = Some v -> OrderedDict.get k d = Some v.
Proof.
  revert d. induction n as [|n IH]; intros [|[k' v'] d]; cbn; try easy.
  intros Hnd Hget. inversion Hnd as [|? ? Hnotin Hnd']; subst.
  specialize (IH d Hnd' Hget).
  destruct (String.eqb_spec k k') as [->|_]; [|exact IH].
  exfalso. apply Hnotin. exact (get_in_keys _ _ _ IH).
Qed.

Lemma get_remove_other {V} k k' (d : OrderedDict.t V) :
  k' <> k ->
  OrderedDict.get k' (OrderedDict.remove k d) = OrderedDict.get k' d.
Proof.
  intros Hne. induction d as [|[k0 v] d IH]; [reflexivity|].
  cbn. destruct (String.eqb_spec k k0) as [->|_]; cbn.
  - destruct (String.eqb_spec k' k0) as [->|_]; [contradiction | exact IH].
  - destruct (String.eqb k' k0); [reflexivity | exact IH].
Qed.

Lemma keys_remove {V} k (d : OrderedDict.t V) :
  OrderedDict.keys (OrderedDict.remove k d)
  = filter (fun k' => negb (String.eqb k k')) (OrderedDict.keys d).
Proof.
  unfold OrderedDict.keys, OrderedDict.remove.
  induction d as [|[k' v] d IH]; [reflexivity|].
  cbn [filter map fst]. destruct (String.eqb k k'); cbn [negb map fst];
    now rewrite IH.
Qed.

Lemma purge_app_last (c : OrderedDict.t Episode) kv :
  purge (c ++ [kv])
  = skipn (List.length (c ++ [kv]) - EPISODE_CACHE_SIZE) c ++ [kv].
Proof.
  rewrite purge_skipn, skipn_app. f_equal.
  rewrite length_app. cbn [List.length]. unfold EPISODE_CACHE_SIZE.
  replace (List.length c + 1 - 5 - List.length c)%nat with 0%nat by lia.
  reflexivity.
Qed.

(** A key is bound once in the cache of the service object. *)
Lemma reachable_nodup st :
  reachable st -> NoDup (OrderedDict.keys (episode_cache st)).
Proof.
  induction 1 as [ext page email password self Hinit
                 | ext site episode_id offset st _ IH
                 | episode seconds st _ IH
                 | ext site podcast_id unplayed_only st _ IH].
  - unfold Overcast_init in Hinit.
    destruct (cssselect page "div.alert"); [|discriminate].
    injection Hinit as <-. constructor.
  - assert (Hrm : NoDup (OrderedDict.keys
                           (OrderedDict.remove episode_id (episode_cache st))))
      by (rewrite keys_remove; now apply NoDup_filter).
    pose proof (get_episode_detail_cache site st episode_id offset) as Hc.
    cbv zeta in Hc.
    destruct (fst (get_episode_detail site episode_id offset st))
      as [x|[e|]]; rewrite Hc; try exact Hrm.
    rewrite keys_purge.
    rewrite <- (app_nil_r (skipn _ _)). apply NoDup_skipn_app.
    rewrite app_nil_r. unfold OrderedDict.keys. rewrite map_app.
    cbn [map fst]. apply NoDup_app; [exact Hrm | repeat constructor; easy |].
    intros k Hk [<-|[]].
    fold (OrderedDict.keys
            (OrderedDict.remove episode_id (episode_cache st))) in Hk.
    rewrite keys_remove in Hk. apply filter_In in Hk as [_ Hk].
    now rewrite String.eqb_refl in Hk.
  - now rewrite update_episode_offset_cache.
  - rewrite sends_cache; [exact IH|].
    apply read_only_get_all_podcast_episodes.
Qed.

(** X1. When [get_episode_detail] returns a record, that record is what the
    cache holds under the episode id afterwards. *)
Theorem get_episode_detail_caches_its_result
    {ext : Externals} site st episode_id offset e :
  fst (get_episode_detail site episode_id offset st) = Return (Some e) ->
  OrderedDict.get episode_id
    (episode_cache (snd (get_episode_detail site episode_id offset st)))
  = Some e.
Proof.
  intros He.
  pose proof (get_episode_detail_cache site st episode_id offset) as Hc.
  cbv zeta in Hc. rewrite He in Hc. rewrite Hc, purge_app_last, get_app.
  rewrite get_skipn_absent by apply get_remove.
  cbn. now rewrite String.eqb_refl.
Qed.

Lemma get_episode_detail_caches_its_result_witness :
  OrderedDict.get "+A"
    (episode_cache (snd (get_episode_detail Demo.site "+A" (-1) Demo.fresh)))
  = Some (Demo.episode "+A" 100000 1900).
Proof.
  apply (get_episode_detail_caches_its_result Demo.site Demo.fresh "+A" (-1)).
  reflexivity.
Defined.

(** X2. A [get_episode_detail] on one id never changes the record cached for
    another id: what the cache holds for the other id afterwards it held
    before, and below the capacity nothing cached for the other id is
    lost. *)
Theorem get_episode_detail_keeps_other_records
    {ext : Externals} site st episode_id offset other :
  reachable st ->
  other <> episode_id ->
  let cache' :=
    episode_cache (snd (get_episode_detail site episode_id offset st)) in
  (forall e, OrderedDict.get other cache' = Some e ->
             OrderedDict.get other (episode_cache st) = Some e)
  /\ ((List.length (episode_cache st) < EPISODE_CACHE_SIZE)%nat ->
      OrderedDict.get other cache' = OrderedDict.get other (episode_cache st)).
Proof.
  intros Hreach Hne cache'.
  pose proof (reachable_nodup st Hreach) as Hnd.
  assert (Hrm : NoDup (OrderedDict.keys
                         (OrderedDict.remove episode_id (episode_cache st))))
    by (rewrite keys_remove; now apply NoDup_filter).
  pose proof (get_episode_detail_cache site st episode_id offset) as Hc.
  cbv zeta in Hc. subst cache'.
  assert (Hlast : forall (e : Episode) older,
             OrderedDict.get other (older ++ [(episode_id, e)])
             = OrderedDict.get other older).
  { intros e older. rewrite get_app. cbn.
    destruct (String.eqb_spec other episode_id) as [|_]; [contradiction|].
    now destruct (OrderedDict.get other older). }
  destruct (fst (get_episode_detail site episode_id offset st))
    as [x|[e|]]; rewrite Hc;
    try (rewrite get_remove_other by exact Hne; now split).
  rewrite purge_app_last, Hlast. split.
  - intros e' He'. apply get_skipn_nodup in He'; [|exact Hrm].
    now rewrite get_remove_other in He'.
  - intros Hlen.
    pose proof (remove_length episode_id (episode_cache st)) as Hle.
    rewrite length_app. cbn [List.length].
    unfold EPISODE_CACHE_SIZE in *.
    replace (_ + 1 - 5)%nat with 0%nat by lia.
    cbn [skipn]. now apply get_remove_other.
Qed.

Lemma get_episode_detail_keeps_other_records_witness :
  OrderedDict.get "+A"
    (episode_cache (snd (get_episode_detail Demo.site "+B" (-1)
                           (snd (get_episode_detail Demo.site "+A" (-1)
                                   Demo.fresh)))))
  = OrderedDict.get "+A"
      (episode_cache (snd (get_episode_detail Demo.site "+A" (-1)
                             Demo.fresh))).
Proof.
  apply (get_episode_detail_keeps_other_records Demo.site
           (snd (get_episode_detail Demo.site "+A" (-1) Demo.fresh))
           "+B" (-1) "+A").
  - apply reach_get_episode_detail.
    apply (reach_init Demo.externals (mkElement "" [] []) "me" "secret").
    reflexivity.
  - discriminate.
  - vm_compute. lia.
Defined.

(** X3. When the record is fetched (the id is not cached, or it is cached
    with an unknown duration), the updated offset plays no part: the call
    does what a call without an offset does, and the record carries the
    offset of the page. *)
Theorem get_episode_detail_fetch_ignores_offset
    {ext : Externals} site st episode_id offset :
  (forall e, OrderedDict.get episode_id (episode_cache st) = Some e ->
             duration e = -1) ->
  get_episode_detail site episode_id offset st
  = get_episode_detail site episode_id (-1) st.
Proof.
  intros Hmiss.
  destruct (fetch_episode_detail_sends site episode_id) as (r & l & Hf).
  rewrite (get_episode_detail_fetched site st episode_id offset r _
             (fun e He => or_intror (Hmiss e He)) Hf).
  now rewrite (get_episode_detail_fetched site st episode_id (-1) r _
                 (fun _ _ => or_introl eq_refl) Hf).
Qed.

Lemma get_episode_detail_fetch_ignores_offset_witness :
  get_episode_detail Demo.site "+E" 5000 Demo.cached_unknown
  = get_episode_detail Demo.site "+E" (-1) Demo.cached_unknown.
Proof.
  apply (get_episode_detail_fetch_ignores_offset
           Demo.site Demo.cached_unknown "+E" 5000).
  intros e He. vm_compute in He. now injection He as <-.
Defined.

(** X4. An offset below -1 is neither "no offset" nor a new position: a
    cached record of known duration is returned as a hit, unchanged, and
    nothing is sent. *)
Theorem get_episode_detail_offset_below_sentinel
    {ext : Externals} site st episode_id e offset :
  OrderedDict.get episode_id (episode_cache st) = Some e ->
  duration e <> -1 ->
  offset < -1 ->
  fst (get_episode_detail site episode_id offset st) = Return (Some e)
  /\ requests_of (get_episode_detail site episode_id offset) st = [].
Proof.
  intros Hget Hdur Hoff.
  assert (Ho : offset <> -1) by lia.
  pose proof (get_episode_detail_cached site st episode_id e offset
                Hget Ho Hdur) as E.
  cbv zeta in E.
  replace (offset >? -1) with false in E
    by (symmetry; rewrite Z.gtb_ltb; apply Z.ltb_ge; lia).
  rewrite E. split; [reflexivity|].
  apply requests_of_unchanged. now rewrite E.
Qed.

Lemma get_episode_detail_offset_below_sentinel_witness :
  fst (get_episode_detail Demo.site "+A" (-2) Demo.cached_known)
  = Return (Some (Demo.episode "+A" 0 1800))
  /\ requests_of (get_episode_detail Demo.site "+A" (-2)) Demo.cached_known
     = [].
Proof.
  apply (get_episode_detail_offset_below_sentinel
           Demo.site Demo.cached_known "+A").
  - reflexivity.
  - cbn. lia.
  - lia.
Defined.

(** * What the reads send *)

Lemma silent_ret {A} (a : A) : silent (ret a).
Proof. eexists. apply sends_ret. Qed.

Lemma silent_raise {A} (e : exn) : silent (@raise A e).
Proof. eexists. apply sends_raise. Qed.

Lemma silent_bind {A B} (m : M A) (k : A -> M B) :
  silent m -> (forall a, silent (k a)) -> silent (bind m k).
Proof.
  intros ([e|a] & Hm) Hk.
  - eexists. eapply sends_bind_raise, Hm.
  - destruct (Hk a) as (r' & Hk').
    eexists. exact (sends_bind_return _ _ _ _ _ _ Hm Hk').
Qed.

Lemma silent_getitem {A} (l : list A) n : silent (getitem l n).
Proof.
  unfold getitem. destruct (nth_error l n);
    [apply silent_ret | apply silent_raise].
Qed.

Lemma silent_attrib_item e name : silent (attrib_item e name).
Proof.
  unfold attrib_item. destruct (assoc name (attrib e));
    [apply silent_ret | apply silent_raise].
Qed.

Create HintDb silent.

#[local] Hint Resolve silent_ret silent_raise silent_getitem
  silent_attrib_item : silent.

Ltac silent_step :=
  match goal with
  | |- silent (bind _ _) => apply silent_bind; [|intro]
  | |- silent (if ?b then _ else _) => destruct b
  | |- silent (match ?o with Some _ => _ | None => _ end) => destruct o
  | |- silent _ => solve [auto with silent]
  end.

Lemma silent_only_gets {A} (m : M A) : silent m -> only_gets m.
Proof. intros (r & H). exists r, []. split; [exact H | constructor]. Qed.

Lemma only_gets_bind {A B} (m : M A) (k : A -> M B) :
  only_gets m -> (forall a, only_gets (k a)) -> only_gets (bind m k).
Proof.
  intros ([e|a] & l & Hm & Hl) Hk.
  - eexists _, _. split; [eapply sends_bind_raise, Hm | exact Hl].
  - destruct (Hk a) as (r' & l' & Hk' & Hl').
    eexists _, _. split; [exact (sends_bind_return _ _ _ _ _ _ Hm Hk')|].
    apply Forall_app. now split.
Qed.

Lemma only_gets_get_html site url : only_gets (_get_html site url).
Proof.
  eexists _, _. split; [apply sends_get_html | repeat constructor].
Qed.

Lemma silent_time_remaining_of_cells {ext : Externals} episode_id cells :
  silent (time_remaining_of_cells episode_id cells).
Proof.
  induction cells as [|cell rest IH]; cbn [time_remaining_of_cells].
  - apply silent_ret.
  - unfold get_episode_time_remaining_seconds_from_episode_cell.
    repeat silent_step.
Qed.

Ltac only_gets_step :=
  match goal with
  | |- only_gets (bind _ _) => apply only_gets_bind; [|intro]
  | |- only_gets (_get_html _ _) => apply only_gets_get_html
  | |- only_gets (if ?b then _ else _) => destruct b
  | |- only_gets (match ?o with Some _ => _ | None => _ end) => destruct o
  | |- only_gets _ => solve [apply silent_only_gets; auto with silent]
  end.

Lemma only_gets_fetch_episode_detail {ext : Externals} site episode_id :
  only_gets (fetch_episode_detail site episode_id).
Proof.
  unfold fetch_episode_detail, get_episode_time_remaining_seconds.
  repeat first [ apply silent_only_gets, silent_time_remaining_of_cells
               | only_gets_step ].
Qed.

(** X5. [get_episode_detail] reads and never writes: every request it sends
    is a GET, whatever the cache holds and whatever the site answers. *)
Theorem get_episode_detail_sends_only_gets
    {ext : Externals} site st episode_id offset :
  Forall is_GET
    (requests_of (get_episode_detail site episode_id offset) st).
Proof.
  destruct (get_episode_detail_paths st episode_id offset)
    as [(e & Hget & Ho & Hd)|Hmiss].
  - rewrite requests_of_unchanged; [constructor|].
    now rewrite (get_episode_detail_cached site st episode_id e offset
                   Hget Ho Hd).
  - destruct (only_gets_fetch_episode_detail site episode_id)
      as (r & l & Hf & Hl).
    rewrite (requests_of_sends _ _ l); [exact Hl|].
    now rewrite (get_episode_detail_fetched site st episode_id offset r l
                   Hmiss Hf).
Qed.

(** * The remaining time of an episode *)

Section TimeRemaining.

Context {ext : Externals} (site : string -> Element).

Lemma time_remaining_skips episode_id pre rest st :
  Forall (passed_over episode_id) pre ->
  time_remaining_of_cells episode_id (pre ++ rest) st
  = time_remaining_of_cells episode_id rest st.
Proof.
  induction 1 as [|cell pre (href & Hhref & Hno) _ IH]; [reflexivity|].
  cbn [app time_remaining_of_cells]. unfold bind, attrib_item.
  rewrite Hhref. unfold ret at 1. now rewrite Hno.
Qed.

Lemma get_episode_time_remaining_seconds_run
    episode_id episode_html a podcast_id st :
  nth_error (cssselect episode_html "div.centertext h3 a") 0 = Some a ->
  assoc "href" (attrib a) = Some podcast_id ->
  get_episode_time_remaining_seconds site episode_id episode_html st
  = time_remaining_of_cells episode_id
      (cssselect (site (urljoin "https://overcast.fm" podcast_id))
         "a.extendedepisodecell")
      {| episode_cache := episode_cache st;
         session := session st
                    ++ [GET (urljoin "https://overcast.fm" podcast_id)] |}.
Proof.
  intros Ha Hhref.
  unfold get_episode_time_remaining_seconds, bind, getitem, attrib_item,
    _get_html, send, ret.
  now rewrite Ha, Hhref.
Qed.

(** X6. The remaining time of an episode is read from the first listed
    cell whose link contains the episode id, from its second single-line
    element; the cells after it are not looked at. *)
Theorem time_remaining_from_first_matching_cell
    episode_id episode_html a podcast_id pre cell post href line st :
  nth_error (cssselect episode_html "div.centertext h3 a") 0 = Some a ->
  assoc "href" (attrib a) = Some podcast_id ->
  cssselect (site (urljoin "https://overcast.fm" podcast_id))
    "a.extendedepisodecell" = pre ++ cell :: post ->
  Forall (passed_over episode_id) pre ->
  assoc "href" (attrib cell) = Some href ->
  PyStr.contains episode_id href = true ->
  nth_error (cssselect cell "div.singleline") 1 = Some line ->
  fst (get_episode_time_remaining_seconds site episode_id episode_html st)
  = Return (duration_in_seconds (text_content line)).
Proof.
  intros Ha Hpod Hcells Hpre Hhref Hin Hline.
  rewrite (get_episode_time_remaining_seconds_run _ _ a podcast_id _ Ha Hpod).
  rewrite Hcells, (time_remaining_skips _ _ _ _ Hpre).
  cbn [time_remaining_of_cells].
  unfold bind, attrib_item, ret,
    get_episode_time_remaining_seconds_from_episode_cell, getitem.
  now rewrite Hhref, Hin, Hline.
Qed.

(** X7. When every listed cell has a link and none contains the episode id,
    the remaining time is [None]: nothing is raised. *)
Theorem time_remaining_without_matching_cell
    episode_id episode_html a podcast_id st :
  nth_error (cssselect episode_html "div.centertext h3 a") 0 = Some a ->
  assoc "href" (attrib a) = Some podcast_id ->
  Forall (passed_over episode_id)
    (cssselect (site (urljoin "https://overcast.fm" podcast_id))
       "a.extendedepisodecell") ->
  fst (get_episode_time_remaining_seconds site episode_id episode_html st)
  = Return None.
Proof.
  intros Ha Hpod Hall.
  rewrite (get_episode_time_remaining_seconds_run _ _ a podcast_id _ Ha Hpod).
  rewrite <- (app_nil_r (cssselect _ _)).
  now rewrite (time_remaining_skips _ _ _ _ Hall).
Qed.

(** X8. A listed cell without a link, met before a cell that matches, makes
    the search raise [KeyError], also when a matching cell comes after it;
    a matching cell with fewer than two single-line elements makes it raise
    [IndexError]. *)
Theorem time_remaining_raises_on_malformed_cell
    episode_id episode_html a podcast_id pre cell post st :
  nth_error (cssselect episode_html "div.centertext h3 a") 0 = Some a ->
  assoc "href" (attrib a) = Some podcast_id ->
  cssselect (site (urljoin "https://overcast.fm" podcast_id))
    "a.extendedepisodecell" = pre ++ cell :: post ->
  Forall (passed_over episode_id) pre ->
  (assoc "href" (attrib cell) = None ->
   fst (get_episode_time_remaining_seconds site episode_id episode_html st)
   = Raise KeyError)
  /\ (forall href,
        assoc "href" (attrib cell) = Some href ->
        PyStr.contains episode_id href = true ->
        nth_error (cssselect cell "div.singleline") 1 = None ->
        fst (get_episode_time_remaining_seconds site episode_id
               episode_html st)
        = Raise IndexError).
Proof.
  intros Ha Hpod Hcells Hpre.
  rewrite (get_episode_time_remaining_seconds_run _ _ a podcast_id _ Ha Hpod).
  rewrite Hcells, (time_remaining_skips _ _ _ _ Hpre).
  cbn [time_remaining_of_cells].
  unfold bind, attrib_item, ret, raise,
    get_episode_time_remaining_seconds_from_episode_cell, getitem.
  split.
  - now intros ->.
  - intros href -> -> Hline. now rewrite Hline.
Qed.

End TimeRemaining.

Lemma time_remaining_from_first_matching_cell_witness :
  fst (get_episode_time_remaining_seconds Demo.site "+B"
         (Demo.episode_page "100") Demo.fresh)
  = Return (Some 3720).
Proof.
  change (Some 3720)
    with (duration_in_seconds (text_content (Demo.txt "1 hr 2 min left"))).
  apply (time_remaining_from_first_matching_cell Demo.site "+B"
           (Demo.episode_page "100")
           (mkElement "The Show" [("href", "/show")] []) "/show"
           [Demo.cell "/+A" Demo.played "A" "30 min left"]
           (Demo.cell "/+B" Demo.unplayed "B" "1 hr 2 min left")
           [Demo.cell "/+C" Demo.unplayed "C" "30 min left";
            Demo.cell "/+D" Demo.played "D" ""]
           "/+B" (Demo.txt "1 hr 2 min left")); try reflexivity.
  repeat constructor. exists "/+A". split; reflexivity.
Defined.

Lemma time_remaining_without_matching_cell_witness :
  fst (get_episode_time_remaining_seconds Demo.site "+E"
         (Demo.episode_page "100") Demo.fresh)
  = Return None.
Proof.
  apply (time_remaining_without_matching_cell Demo.site "+E"
           (Demo.episode_page "100")
           (mkElement "The Show" [("href", "/show")] []) "/show");
    try reflexivity.
  repeat constructor; eexists; split; reflexivity.
Defined.

Lemma time_remaining_raises_on_malformed_cell_witness :
  fst (get_episode_time_remaining_seconds Demo.broken_site "+B"
         (Demo.episode_page "100") Demo.fresh)
  = Raise KeyError.
Proof.
  apply (time_remaining_raises_on_malformed_cell Demo.broken_site "+B"
           (Demo.episode_page "100")
           (mkElement "The Show" [("href", "/show")] []) "/show"
           [] (mkElement "no link" [] [])
           [Demo.cell "/+B" Demo.unplayed "B" "1 hr 2 min left"]);
    try reflexivity.
  constructor.
Defined.

(** * The record parsed from the episode page *)

Lemma bind_return_inv {A B} (m : M A) (k : A -> M B) st b st' :
  bind m k st = (Return b, st') ->
  exists a st1, m st = (Return a, st1) /\ k a st1 = (Return b, st').
Proof.
  unfold bind. destruct (m st) as [[e|a] st1]; [discriminate|].
  intros H. now exists a, st1.
Qed.



Ltac bind_inv H x Hx :=
  let st1 := fresh "st" in
  apply bind_return_inv in H as (x & st1 & Hx & H).



(** * The listing of episodes *)

Section EpisodeListing.

Context {ext : Externals} (site : string -> Element).

Lemma first_element_nth (l : list Element) :
  l <> [] -> nth_error l 0 = Some (first_element l).
Proof. destruct l; [contradiction | reflexivity]. Qed.

(** One turn of the loop on a cell that has what its summary needs. *)
Lemma episode_of_cell_run podcast_title art unplayed_only cell episodes st :
  (negb unplayed_only || is_unplayed cell = true -> episode_cell_ok cell) ->
  episode_of_cell podcast_title art unplayed_only cell episodes st
  = (Return
       (if has_attrib cell "href" && (negb unplayed_only || is_unplayed cell)
        then if unplayed_only
             then summary_of podcast_title art cell :: episodes
             else episodes ++ [summary_of podcast_title art cell]
        else episodes),
     st).
Proof.
  intros Hok. unfold episode_of_cell, summary_of.
  fold (is_unplayed cell).
  destruct (has_attrib cell "href") eqn:Hhref; [|reflexivity].
  cbn [andb].
  assert (Hskip : negb unplayed_only
                  || unplayed_only
                     && negb ((if is_unplayed cell
                               then UNPLAYED_EPISODE_PREFIX else "") =? "")%string
                  = negb unplayed_only || is_unplayed cell)
    by (destruct unplayed_only, (is_unplayed cell); reflexivity).
  rewrite Hskip.
  destruct (negb unplayed_only || is_unplayed cell) eqn:Hkeep;
    [|reflexivity].
  destruct (Hok eq_refl Hhref) as [Ht Hc].
  unfold bind, getitem.
  rewrite (first_element_nth _ Ht). unfold ret at 1.
  rewrite (first_element_nth _ Hc). unfold ret at 1.
  now destruct unplayed_only.
Qed.

Lemma episodes_of_cells_all podcast_title art cells :
  Forall episode_cell_ok cells ->
  forall episodes st,
    episodes_of_cells podcast_title art false cells episodes st
    = (Return (episodes
               ++ map (summary_of podcast_title art)
                    (filter (fun cell => has_attrib cell "href") cells)),
       st).
Proof.
  induction 1 as [|cell cells Hok _ IH]; intros episodes st.
  - cbn. unfold ret. now rewrite app_nil_r.
  - cbn [episodes_of_cells]. unfold bind.
    rewrite episode_of_cell_run by (intros _; exact Hok).
    rewrite IH. cbn [filter negb orb andb].
    destruct (has_attrib cell "href"); cbn [andb map]; [|reflexivity].
    now rewrite <- app_assoc.
Qed.

Lemma episodes_of_cells_unplayed podcast_title art cells :
  Forall (fun cell => is_unplayed cell = true -> episode_cell_ok cell) cells ->
  forall episodes st,
    episodes_of_cells podcast_title art true cells episodes st
    = (Return (rev (map (summary_of podcast_title art)
                      (filter (fun cell => has_attrib cell "href"
                                           && is_unplayed cell) cells))
               ++ episodes),
       st).
Proof.
  induction 1 as [|cell cells Hok _ IH]; intros episodes st.
  - reflexivity.
  - cbn [episodes_of_cells]. unfold bind.
    rewrite episode_of_cell_run by exact Hok.
    rewrite IH. cbn [filter negb orb].
    destruct (has_attrib cell "href" && is_unplayed cell);
      [|reflexivity].
    cbn [map rev]. now rewrite <- app_assoc.
Qed.

Lemma get_all_podcast_episodes_run podcast_id unplayed_only art
    podcast_title st :
  podcast_header (site (urljoin "https://overcast.fm" podcast_id))
    art podcast_title ->
  get_all_podcast_episodes site podcast_id unplayed_only st
  = episodes_of_cells podcast_title art unplayed_only
      (cssselect (site (urljoin "https://overcast.fm" podcast_id))
         "a.extendedepisodecell") []
      {| episode_cache := episode_cache st;
         session := session st
                    ++ [GET (urljoin "https://overcast.fm" podcast_id)] |}.
Proof.
  intros (img & h2 & Himg & Hsrc & Hh2 & Htitle).
  unfold get_all_podcast_episodes, _get_html, getitem, attrib_item,
    bind, send, ret.
  now rewrite Himg, Hsrc, Hh2, Htitle.
Qed.

(** X10. The listing of all episodes of a podcast: on a page that shows its
    art and title, and whose cells that are links have a title and a
    caption, the result is one summary per cell that is a link, in page
    order (the unplayed ones with the prefix ["* "] on the title); cells
    that are no links are left out. *)
Theorem get_all_podcast_episodes_in_page_order
    podcast_id art podcast_title st :
  let doc := site (urljoin "https://overcast.fm" podcast_id) in
  podcast_header doc art podcast_title ->
  Forall episode_cell_ok (cssselect doc "a.extendedepisodecell") ->
  fst (get_all_podcast_episodes site podcast_id false st)
  = Return (map (summary_of podcast_title art)
              (filter (fun cell => has_attrib cell "href")
                 (cssselect doc "a.extendedepisodecell"))).
Proof.
  intros doc Hhead Hcells.
  rewrite (get_all_podcast_episodes_run _ _ _ _ _ Hhead).
  now rewrite (episodes_of_cells_all _ _ _ Hcells).
Qed.

(** X11. The listing of unplayed episodes, for any number of cells: the
    summaries of the unplayed cells that are links, in the reverse of the
    page order; the other cells are not read, so they may lack a title or a
    caption. *)
Theorem get_all_podcast_episodes_unplayed_reversed
    podcast_id art podcast_title st :
  let doc := site (urljoin "https://overcast.fm" podcast_id) in
  podcast_header doc art podcast_title ->
  Forall (fun cell => is_unplayed cell = true -> episode_cell_ok cell)
    (cssselect doc "a.extendedepisodecell") ->
  fst (get_all_podcast_episodes site podcast_id true st)
  = Return (rev (map (summary_of podcast_title art)
                   (filter (fun cell => has_attrib cell "href"
                                        && is_unplayed cell)
                      (cssselect doc "a.extendedepisodecell")))).
Proof.
  intros doc Hhead Hcells.
  rewrite (get_all_podcast_episodes_run _ _ _ _ _ Hhead).
  rewrite (episodes_of_cells_unplayed _ _ _ Hcells).
  cbn [fst]. now rewrite app_nil_r.
Qed.

(** X12. A podcast page without the art image, or without the title
    heading, makes the listing raise [IndexError]: it does not answer with
    an empty list. *)
Theorem get_all_podcast_episodes_without_header_raises
    podcast_id unplayed_only st :
  let doc := site (urljoin "https://overcast.fm" podcast_id) in
  cssselect doc "img.art" = []
  \/ (has_attrib (first_element (cssselect doc "img.art")) "src" = true
      /\ cssselect doc "h2.centertext" = []) ->
  fst (get_all_podcast_episodes site podcast_id unplayed_only st)
  = Raise IndexError.
Proof.
  intros doc H.
  unfold get_all_podcast_episodes, _get_html, getitem, attrib_item,
    bind, send, ret. cbn [fst snd]. fold doc.
  destruct H as [Hart|[Hsrc Hh2]].
  - now rewrite Hart.
  - unfold has_attrib in Hsrc.
    destruct (cssselect doc "img.art") as [|img imgs]; [reflexivity|].
    cbn [nth_error first_element hd] in *.
    destruct (assoc "src" (attrib img)); [|discriminate].
    now rewrite Hh2.
Qed.

End EpisodeListing.

Lemma silent_episodes_of_cells {ext : Externals}
    podcast_title art unplayed_only cells :
  forall episodes,
    silent (episodes_of_cells podcast_title art unplayed_only
              cells episodes).
Proof.
  induction cells as [|cell rest IH]; intros episodes;
    cbn [episodes_of_cells].
  - apply silent_ret.
  - apply silent_bind; [|intro; apply IH].
    unfold episode_of_cell. repeat silent_step.
Qed.

Lemma silent_podcasts_of_cells unplayed_only cells :
  forall podcasts, silent (podcasts_of_cells unplayed_only cells podcasts).
Proof.
  induction cells as [|cell rest IH]; intros podcasts;
    cbn [podcasts_of_cells].
  - apply silent_ret.
  - apply silent_bind; [|intro; apply IH].
    unfold podcast_of_cell, create_podcast_from_cell. repeat silent_step.
Qed.

(** X13. The two listings send one request each, the GET of the page they
    list, whatever the page holds and also when they raise; and they leave
    the episode cache as it is. *)
Theorem listings_send_one_get
    {ext : Externals} site podcast_id unplayed_only st :
  requests_of (get_all_podcast_episodes site podcast_id unplayed_only) st
  = [GET (urljoin "https://overcast.fm" podcast_id)]
  /\ requests_of (get_all_podcasts site unplayed_only) st
     = [GET "https://overcast.fm/podcasts"]
  /\ episode_cache
       (snd (get_all_podcast_episodes site podcast_id unplayed_only st))
     = episode_cache st
  /\ episode_cache (snd (get_all_podcasts site unplayed_only st))
     = episode_cache st.
Proof.
  assert (He : exists r,
             sends (get_all_podcast_episodes site podcast_id unplayed_only)
               r ([GET (urljoin "https://overcast.fm" podcast_id)] ++ [])).
  { unfold get_all_podcast_episodes.
    match goal with
    | |- exists r, sends (bind _ ?k) _ _ =>
        assert (Hk : silent (k (site (urljoin "https://overcast.fm"
                                        podcast_id))))
    end.
    { cbv beta.
      repeat first [ apply silent_episodes_of_cells | silent_step ]. }
    destruct Hk as (r & Hk). exists r.
    exact (sends_bind_return _ _ _ _ _ _ (sends_get_html _ _) Hk). }
  assert (Hp : exists r,
             sends (get_all_podcasts site unplayed_only)
               r ([GET "https://overcast.fm/podcasts"] ++ [])).
  { unfold get_all_podcasts.
    match goal with
    | |- exists r, sends (bind _ ?k) _ _ =>
        assert (Hk : silent (k (site "https://overcast.fm/podcasts")))
    end.
    { cbv beta.
      repeat first [ apply silent_podcasts_of_cells | silent_step ]. }
    destruct Hk as (r & Hk). exists r.
    exact (sends_bind_return _ _ _ _ _ _ (sends_get_html _ _) Hk). }
  destruct He as (re & He), Hp as (rp & Hp).
  repeat split.
  - apply requests_of_sends. now rewrite He.
  - apply requests_of_sends. now rewrite Hp.
  - now rewrite He.
  - now rewrite Hp.
Qed.

Lemma get_all_podcast_episodes_in_page_order_witness :
  fst (get_all_podcast_episodes Demo.site "show" false Demo.fresh)
  = Return (map (summary_of "The Show" "art.jpg")
              [Demo.cell "/+A" Demo.played "A" "30 min left";
               Demo.cell "/+B" Demo.unplayed "B" "1 hr 2 min left";
               Demo.cell "/+C" Demo.unplayed "C" "30 min left";
               Demo.cell "/+D" Demo.played "D" ""]).
Proof.
  assert (H := get_all_podcast_episodes_in_page_order Demo.site "show"
                 "art.jpg" "The Show" Demo.fresh).
  cbv zeta in H. apply H.
  - eexists _, _. repeat split; reflexivity.
  - repeat constructor; discriminate.
Defined.

Lemma get_all_podcast_episodes_unplayed_reversed_witness :
  fst (get_all_podcast_episodes Demo.site "show" true Demo.fresh)
  = Return (map (summary_of "The Show" "art.jpg")
              [Demo.cell "/+C" Demo.unplayed "C" "30 min left";
               Demo.cell "/+B" Demo.unplayed "B" "1 hr 2 min left"]).
Proof.
  assert (H := get_all_podcast_episodes_unplayed_reversed Demo.site "show"
                 "art.jpg" "The Show" Demo.fresh).
  cbv zeta in H. apply H.
  - eexists _, _. repeat split; reflexivity.
  - repeat constructor; discriminate.
Defined.

Lemma get_all_podcast_episodes_without_header_raises_witness :
  fst (get_all_podcast_episodes Demo.site "+gone" false Demo.fresh)
  = Raise IndexError.
Proof.
  apply (get_all_podcast_episodes_without_header_raises Demo.site "+gone").
  left. reflexivity.
Defined.

(** * The listing of podcasts *)

Lemma insert_by_title_perm p l :
  Permutation (insert_by_title p l) (p :: l).
Proof.
  induction l as [|q l IH]; cbn [insert_by_title]; [reflexivity|].
  destruct (String.leb (p_title p) (p_title q)); [reflexivity|].
  rewrite IH. apply perm_swap.
Qed.

Lemma sort_by_title_perm l : Permutation (sort_by_title l) l.
Proof.
  induction l as [|p l IH]; cbn [sort_by_title]; [reflexivity|].
  rewrite insert_by_title_perm. now constructor.
Qed.

Lemma insert_by_title_hdrel q p l :
  title_le q p -> HdRel title_le q l ->
  HdRel title_le q (insert_by_title p l).
Proof.
  intros Hqp Hq. destruct l as [|r l]; cbn [insert_by_title].
  - now constructor.
  - destruct (String.leb (p_title p) (p_title r)); constructor;
      [exact Hqp | now inversion Hq].
Qed.

Lemma insert_by_title_sorted p l :
  Sorted title_le l -> Sorted title_le (insert_by_title p l).
Proof.
  induction 1 as [|q l Hs IH Hq]; cbn [insert_by_title].
  - repeat constructor.
  - destruct (String.leb (p_title p) (p_title q)) eqn:Hpq.
    + constructor; [now constructor | now constructor].
    + constructor; [exact IH|].
      apply insert_by_title_hdrel; [|exact Hq].
      destruct (String.leb_total (p_title p) (p_title q)) as [H|H];
        [congruence | exact H].
Qed.

Lemma sort_by_title_sorted l : Sorted title_le (sort_by_title l).
Proof.
  induction l as [|p l IH]; cbn [sort_by_title]; [constructor|].
  now apply insert_by_title_sorted.
Qed.

Section PodcastListing.

Context {ext : Externals} (site : string -> Element).

Lemma podcast_of_cell_run unplayed_only cell podcasts st :
  (kept unplayed_only cell = true -> feed_cell_ok cell) ->
  podcast_of_cell unplayed_only cell podcasts st
  = (Return (if kept unplayed_only cell
             then podcasts ++ [podcast_of cell] else podcasts),
     st).
Proof.
  intros Hok. unfold podcast_of_cell, kept, has_indicator in *.
  destruct (has_attrib cell "href") eqn:Hhref; [|reflexivity].
  cbn [andb] in *.
  replace (negb unplayed_only
           || unplayed_only
              && (0 <? List.length
                         (cssselect cell "svg.unplayed_indicator"))%nat)
    with (negb unplayed_only
          || (0 <? List.length
                     (cssselect cell "svg.unplayed_indicator"))%nat)
    by (now destruct unplayed_only).
  destruct (negb unplayed_only
            || (0 <? List.length
                       (cssselect cell "svg.unplayed_indicator"))%nat);
    [|reflexivity].
  destruct (Hok eq_refl Hhref) as (Ht & Hsrc & Himg).
  unfold create_podcast_from_cell, podcast_of, bind, getitem, attrib_item,
    attrib_get.
  unfold has_attrib in Hhref, Hsrc.
  destruct (assoc "href" (attrib cell)) as [href|]; [|discriminate].
  unfold ret at 1.
  rewrite (first_element_nth _ Ht). unfold ret at 1.
  rewrite (first_element_nth _ Himg). unfold ret at 1.
  destruct (assoc "src" (attrib (first_element (cssselect cell "img"))));
    [reflexivity | discriminate].
Qed.

Lemma podcasts_of_cells_run unplayed_only cells :
  Forall (fun cell => kept unplayed_only cell = true -> feed_cell_ok cell)
    cells ->
  forall podcasts st,
    podcasts_of_cells unplayed_only cells podcasts st
    = (Return (podcasts
               ++ map podcast_of (filter (kept unplayed_only) cells)),
       st).
Proof.
  induction 1 as [|cell cells Hok _ IH]; intros podcasts st.
  - cbn. unfold ret. now rewrite app_nil_r.
  - cbn [podcasts_of_cells]. unfold bind.
    rewrite podcast_of_cell_run by exact Hok.
    rewrite IH. cbn [filter].
    destruct (kept unplayed_only cell); [|reflexivity].
    cbn [map]. now rewrite <- app_assoc.
Qed.

(** X14. The listing of podcasts: on a feed page whose kept cells have a
    title and an image, the result holds one podcast per kept cell (every
    cell that is a link, or with [unplayed_only] the links that carry the
    unplayed indicator), the same ones, reordered so that titles are in
    non-decreasing order. *)
Theorem get_all_podcasts_sorted_by_title unplayed_only st :
  let cells := cssselect (site "https://overcast.fm/podcasts") "a.feedcell" in
  Forall (fun cell => kept unplayed_only cell = true -> feed_cell_ok cell)
    cells ->
  exists podcasts,
    fst (get_all_podcasts site unplayed_only st) = Return podcasts
    /\ Sorted title_le podcasts
    /\ Permutation podcasts
         (map podcast_of (filter (kept unplayed_only) cells)).
Proof.
  intros cells Hcells.
  exists (sort_by_title (map podcast_of (filter (kept unplayed_only) cells))).
  split; [|split].
  - unfold get_all_podcasts, _get_html, bind, send, ret.
    cbn [fst snd]. fold cells.
    now rewrite (podcasts_of_cells_run _ _ Hcells).
  - apply sort_by_title_sorted.
  - apply sort_by_title_perm.
Qed.

End PodcastListing.

Lemma get_all_podcasts_sorted_by_title_witness :
  exists podcasts,
    fst (get_all_podcasts Demo.feed_site false Demo.fresh) = Return podcasts
    /\ Sorted title_le podcasts
    /\ Permutation podcasts
         (map podcast_of
            (filter (kept false)
               (cssselect (Demo.feed_site "https://overcast.fm/podcasts")
                  "a.feedcell"))).
Proof.
  apply (get_all_podcasts_sorted_by_title Demo.feed_site false Demo.fresh).
  repeat constructor; discriminate.
Defined.

(** * The pages of [getMetadata] *)

Lemma firstn_min_length {A} n (l : list A) :
  firstn (Nat.min n (List.length l)) l = firstn n l.
Proof.
  destruct (Nat.le_ge_cases n (List.length l)) as [H|H].
  - now rewrite Nat.min_l.
  - rewrite Nat.min_r by exact H. now rewrite firstn_all, firstn_all2.
Qed.

(** The slice of a page: [count] items from [index] on, as far as there
    are. *)
Lemma py_slice_page {A} (l : list A) index count :
  0 <= index -> 0 <= count ->
  py_slice l index (index + count)
  = firstn (Z.to_nat count) (skipn (Z.to_nat index) l).
Proof.
  intros Hi Hc. unfold py_slice, slice_bound.
  replace (index <? 0) with false by (symmetry; apply Z.ltb_ge; lia).
  replace (index + count <? 0) with false by (symmetry; apply Z.ltb_ge; lia).
  set (len := Z.of_nat (List.length l)).
  destruct (Z.le_gt_cases index len) as [Hle|Hgt].
  - rewrite (Z.min_l index len) by exact Hle.
    rewrite <- (firstn_min_length (Z.to_nat count)).
    f_equal. rewrite length_skipn. subst len. lia.
  - rewrite (Z.min_r index len) by lia.
    rewrite !skipn_all2 by (subst len; lia).
    now rewrite !firstn_nil.
Qed.

Lemma page_length {A} (l : list A) index count :
  0 <= index -> 0 <= count ->
  Z.of_nat (List.length (firstn (Z.to_nat count) (skipn (Z.to_nat index) l)))
  = Z.min count (Z.max 0 (Z.of_nat (List.length l) - index)).
Proof.
  intros Hi Hc. rewrite length_firstn, length_skipn. lia.
Qed.

Lemma in_page {A} (x : A) n m (l : list A) :
  In x (firstn n (skipn m l)) -> In x l.
Proof.
  intros H. rewrite <- (firstn_skipn m l). apply in_or_app. right.
  rewrite <- (firstn_skipn n (skipn m l)). apply in_or_app. now left.
Qed.

Lemma podcast_prefix_not_listing id_ :
  prefix PODCAST_ID_PREFIX id_ = true ->
  String.eqb id_ "root" = false
  /\ String.eqb id_ ALL_PODCASTS_ID = false
  /\ String.eqb id_ UNPLAYED_PODCASTS_ID = false.
Proof.
  destruct id_ as [|a rest]; [discriminate|].
  unfold PODCAST_ID_PREFIX, ALL_PODCASTS_ID, UNPLAYED_PODCASTS_ID.
  cbn [prefix]. destruct (ascii_dec "p" a) as [<-|]; [|discriminate].
  intros _. repeat split.
Qed.

(** Every summary of the listing carries the same audio type. *)
Lemma episodes_of_cells_audio_type {ext : Externals}
    podcast_title art unplayed_only cells :
  forall episodes st all st',
    episodes_of_cells podcast_title art unplayed_only cells episodes st
    = (Return all, st') ->
    Forall (fun e => s_audio_type e = "audio/mpeg") episodes ->
    Forall (fun e => s_audio_type e = "audio/mpeg") all.
Proof.
  induction cells as [|cell rest IH]; intros episodes st all st' Hrun Hacc;
    cbn [episodes_of_cells] in Hrun.
  - unfold ret in Hrun. now injection Hrun as <- _.
  - bind_inv Hrun episodes' Hturn.
    apply (IH _ _ _ _ Hrun). clear IH Hrun.
    unfold episode_of_cell in Hturn.
    destruct (has_attrib cell "href");
      [|unfold ret in Hturn; now injection Hturn as <- _].
    match type of Hturn with
    | (if ?c then _ else _) _ = _ => destruct c
    end; [|unfold ret in Hturn; now injection Hturn as <- _].
    bind_inv Hturn title_div Ht. bind_inv Hturn caption Hc.
    destruct unplayed_only; unfold ret in Hturn; injection Hturn as <- _.
    + now constructor.
    + apply Forall_app. split; [exact Hacc | now repeat constructor].
Qed.

Section Pages.

Context {ext : Externals} (site : string -> Element).

(** X15. A page of the podcast collections ([all_podcasts] and
    [unplayed_podcasts]), for an index and a count that are not negative:
    the header repeats the index, its count is the number of collections
    that follow, which is the requested count or what is left from the index
    on, and its total is the size of the whole listing. *)
Theorem getMetadata_podcasts_page (unplayed : bool) index count
    recursive all st :
  let id_ := if unplayed then UNPLAYED_PODCASTS_ID else ALL_PODCASTS_ID in
  fst (get_all_podcasts site unplayed st) = Return all ->
  0 <= index -> 0 <= count ->
  let page := firstn (Z.to_nat count) (skipn (Z.to_nat index) all) in
  fst (getMetadata site id_ index count recursive st)
  = Return (Header index (Z.of_nat (List.length page))
              (Z.of_nat (List.length all))
            :: map (fun podcast =>
                      Collection
                        (create_podcast_media_collection podcast unplayed))
                 page)
  /\ Z.of_nat (List.length page)
     = Z.min count (Z.max 0 (Z.of_nat (List.length all) - index)).
Proof.
  intros id_ Hall Hi Hc page. split; [|now apply page_length].
  assert (Hid : String.eqb id_ "root" = false
                /\ String.eqb id_ ALL_PODCASTS_ID
                   || String.eqb id_ UNPLAYED_PODCASTS_ID = true
                /\ String.eqb id_ UNPLAYED_PODCASTS_ID = unplayed)
    by (subst id_; destruct unplayed; repeat split).
  destruct Hid as (Hroot & Hlist & Hunplayed).
  unfold getMetadata. rewrite Hroot, Hlist, Hunplayed. unfold bind.
  destruct (get_all_podcasts site unplayed st) as [r st1].
  cbn [fst] in Hall. subst r. unfold ret. cbn [fst].
  now rewrite (py_slice_page _ _ _ Hi Hc).
Qed.

(** X16. A page of the root view: the two collections "All Podcasts" and
    "Unplayed Podcasts" head every page, whatever the index, and are counted
    in the count and the total of every page; past the end of the unplayed
    podcasts a page holds the two of them and a count of 2. *)
Theorem getMetadata_root_page index count recursive all st :
  fst (get_all_podcasts site true st) = Return all ->
  0 <= index -> 0 <= count ->
  let page := firstn (Z.to_nat count) (skipn (Z.to_nat index) all) in
  fst (getMetadata site "root" index count recursive st)
  = Return (Header index (Z.of_nat (List.length page) + 2)
              (Z.of_nat (List.length all) + 2)
            :: Collection all_podcasts_collection
            :: Collection unplayed_podcasts_collection
            :: map (fun podcast =>
                      Collection
                        (create_podcast_media_collection podcast true))
                 page)
  /\ (Z.of_nat (List.length all) <= index -> page = []).
Proof.
  intros Hall Hi Hc page. split.
  - unfold getMetadata. cbn [String.eqb Ascii.eqb Bool.eqb andb].
    unfold bind.
    destruct (get_all_podcasts site true st) as [r st1].
    cbn [fst] in Hall. subst r. unfold ret. cbn [fst app].
    now rewrite (py_slice_page _ _ _ Hi Hc).
  - intros Hpast. subst page.
    rewrite skipn_all2 by lia. apply firstn_nil.
Qed.

(** X17. A page of the episodes of a podcast (an id that starts with
    ["podcast"] and has a ["/"]): the header counts the entries of the page
    and the whole listing, the listing is the unplayed one exactly when the
    part before the first ["/"] is ["podcast_unplayed"], and every entry has
    the mime type ["audio/mp4"] or ["audio/mpeg"]. *)
Theorem getMetadata_episodes_page id_ id_prefix podcast_id index count
    recursive all st :
  prefix PODCAST_ID_PREFIX id_ = true ->
  PyStr.split1 "/" id_ = Some (id_prefix, podcast_id) ->
  fst (get_all_podcast_episodes site podcast_id
         (String.eqb id_prefix UNPLAYED_PODCAST_ID_PREFIX) st)
  = Return all ->
  0 <= index -> 0 <= count ->
  let page := firstn (Z.to_nat count) (skipn (Z.to_nat index) all) in
  fst (getMetadata site id_ index count recursive st)
  = Return (Header index (Z.of_nat (List.length page))
              (Z.of_nat (List.length all))
            :: map (fun episode => Metadata (episode_metadata episode)) page)
  /\ Forall (fun episode =>
               mm_mimeType (episode_metadata episode) = "audio/mp4"
               \/ mm_mimeType (episode_metadata episode) = "audio/mpeg")
       page.
Proof.
  intros Hprefix Hsplit Hall Hi Hc page.
  destruct (podcast_prefix_not_listing id_ Hprefix) as (Hroot & Ha & Hu).
  split.
  - unfold getMetadata. rewrite Hroot, Ha, Hu, Hprefix, Hsplit.
    cbn [orb]. unfold bind.
    destruct (get_all_podcast_episodes site podcast_id _ st) as [r st1].
    cbn [fst] in Hall. subst r. unfold ret. cbn [fst].
    now rewrite (py_slice_page _ _ _ Hi Hc).
  - assert (Htype : Forall (fun e => s_audio_type e = "audio/mpeg") all).
    { unfold get_all_podcast_episodes in Hall.
      destruct (bind _ _ st) as [r st1] eqn:Hrun in Hall.
      cbn [fst] in Hall. subst r.
      bind_inv Hrun doc Hdoc. bind_inv Hrun img Himg.
      bind_inv Hrun src Hsrc. bind_inv Hrun h2 Hh2.
      apply (episodes_of_cells_audio_type _ _ _ _ _ _ _ _ Hrun).
      constructor. }
    assert (Hpage : Forall (fun e => s_audio_type e = "audio/mpeg") page).
    { apply Forall_forall. intros e He.
      apply (proj1 (Forall_forall _ _) Htype).
      subst page. exact (in_page _ _ _ _ He). }
    refine (Forall_impl _ _ Hpage). intros e He.
    unfold episode_metadata, fixed_mimetype_for_episode. cbn [mm_mimeType].
    rewrite He.
    destruct (PyStr.contains "Group Therapy Radio" (s_title e));
      [now left|].
    destruct (PyStr.contains "Monstercat" (s_title e)); now right.
Qed.

(** X18. Ids that name no listing: an id that is none of the collections and
    does not start with ["podcast"] is answered with the empty page (index,
    count and total 0) and nothing is fetched; an id that starts with
    ["podcast"] and has no ["/"] raises [ValueError], nothing fetched. *)
Theorem getMetadata_without_listing id_ index count recursive st :
  String.eqb id_ "root" = false ->
  String.eqb id_ ALL_PODCASTS_ID = false ->
  String.eqb id_ UNPLAYED_PODCASTS_ID = false ->
  (prefix PODCAST_ID_PREFIX id_ = false ->
   getMetadata site id_ index count recursive st
   = (Return [Header 0 0 0], st))
  /\ (prefix PODCAST_ID_PREFIX id_ = true ->
      PyStr.split1 "/" id_ = None ->
      getMetadata site id_ index count recursive st
      = (Raise ValueError, st)).
Proof.
  intros Hroot Ha Hu. unfold getMetadata. rewrite Hroot, Ha, Hu.
  cbn [orb]. split.
  - now intros ->.
  - now intros -> ->.
Qed.

End Pages.

Lemma getMetadata_podcasts_page_witness :
  fst (getMetadata Demo.feed_site ALL_PODCASTS_ID 1 5 false Demo.fresh)
  = Return
      [Header 1 2 3;
       Collection
         (create_podcast_media_collection
            (mkPodcast "mu" "Mu" "art.jpg") false);
       Collection
         (create_podcast_media_collection
            (mkPodcast "zeta" "Zeta" "art.jpg") false)].
Proof.
  assert (H := getMetadata_podcasts_page Demo.feed_site false 1 5 false
                 [mkPodcast "alpha" "Alpha" "art.jpg";
                  mkPodcast "mu" "Mu" "art.jpg";
                  mkPodcast "zeta" "Zeta" "art.jpg"] Demo.fresh).
  cbv zeta in H. apply H.
  - reflexivity.
  - lia.
  - lia.
Defined.

Lemma getMetadata_root_page_witness :
  fst (getMetadata Demo.feed_site "root" 5 10 false Demo.fresh)
  = Return
      [Header 5 2 4;
       Collection all_podcasts_collection;
       Collection unplayed_podcasts_collection].
Proof.
  assert (H := getMetadata_root_page Demo.feed_site 5 10 false
                 [mkPodcast "mu" "Mu" "art.jpg";
                  mkPodcast "zeta" "Zeta" "art.jpg"] Demo.fresh).
  cbv zeta in H. apply H.
  - reflexivity.
  - lia.
  - lia.
Defined.

Lemma getMetadata_episodes_page_witness :
  Forall (fun episode =>
            mm_mimeType (episode_metadata episode) = "audio/mp4"
            \/ mm_mimeType (episode_metadata episode) = "audio/mpeg")
    (firstn 1
       (map (summary_of "The Show" "art.jpg")
          [Demo.cell "/+C" Demo.unplayed "C" "30 min left";
           Demo.cell "/+B" Demo.unplayed "B" "1 hr 2 min left"])).
Proof.
  assert (H := getMetadata_episodes_page Demo.site "podcast_unplayed/show"
                 "podcast_unplayed" "show" 0 1 false
                 (map (summary_of "The Show" "art.jpg")
                    [Demo.cell "/+C" Demo.unplayed "C" "30 min left";
                     Demo.cell "/+B" Demo.unplayed "B" "1 hr 2 min left"])
                 Demo.fresh).
  cbv zeta in H. apply H.
  - reflexivity.
  - reflexivity.
  - reflexivity.
  - lia.
  - lia.
Defined.

Lemma getMetadata_without_listing_witness :
  getMetadata Demo.site "favorites" 0 10 false Demo.fresh
  = (Return [Header 0 0 0], Demo.fresh).
Proof.
  apply (getMetadata_without_listing Demo.site "favorites" 0 10 false
           Demo.fresh); reflexivity.
Defined.

(** * The handlers of single episodes *)


Section EpisodeHandlers.

Context {ext : Externals} (site : string -> Element).

(** X19. [getMediaMetadata] on an id whose fetched page has no audio-player
    element answers [None] and raises nothing: of the handlers of single
    episodes it is the one that tests the record before reading it. *)
Theorem getMediaMetadata_absent_episode id_ collection episode_id st :
  PyStr.rsplit1 "/" id_ = Some (collection, episode_id) ->
  cssselect (site (urljoin "https://overcast.fm" episode_id))
    "audio#audioplayer" = [] ->
  fst (getMediaMetadata site id_ st) = Return None.
Proof.
  intros Hsplit Hno. unfold getMediaMetadata, bind. rewrite Hsplit.
  rewrite (get_episode_detail_fetched site st episode_id (-1) _ _
             (fun _ _ => or_introl eq_refl)
             (fetch_episode_detail_no_player site episode_id Hno)).
  reflexivity.
Qed.


(** X21. [getMediaURI] is never answered from the cache: for an id with a
    ["/"] it fetches the episode page first, whatever the cache holds; and
    the position it answers with is the offset of the record that
    [get_episode_detail] returns. *)
Theorem getMediaURI_fetches_the_page id_ collection episode_id st :
  PyStr.rsplit1 "/" id_ = Some (collection, episode_id) ->
  (exists rest,
      requests_of (getMediaURI site id_) st
      = GET (urljoin "https://overcast.fm" episode_id) :: rest)
  /\ (forall e,
         fst (get_episode_detail site episode_id (-1) st)
         = Return (Some e) ->
         fst (getMediaURI site id_ st)
         = Return
             {| getMediaURIResult := final_redirect_url (parsed_audio_uri e);
                getMediaURI_positionInformation :=
                  {| pi_id := "episodes/" ++ id e;
                     pi_index := 0;
                     pi_offsetMillis := offsetMillis e |} |}).
Proof.
  intros Hsplit.
  destruct (fetch_episode_detail_sends site episode_id) as (r & l & Hf).
  pose proof (get_episode_detail_fetched site st episode_id (-1) r _
                (fun _ _ => or_introl eq_refl) Hf) as E.
  split.
  - exists l. apply requests_of_sends.
    unfold getMediaURI, bind. rewrite Hsplit, E.
    now destruct r as [x|[e|]].
  - intros e He. unfold getMediaURI, bind. rewrite Hsplit.
    rewrite E in He |- *. cbn [fst] in He.
    destruct r as [x|[e1|]]; try discriminate.
    now injection He as ->.
Qed.

End EpisodeHandlers.

Lemma getMediaMetadata_absent_episode_witness :
  fst (getMediaMetadata Demo.site "episodes/+gone" Demo.fresh) = Return None.
Proof.
  apply (getMediaMetadata_absent_episode Demo.site "episodes/+gone"
           "episodes" "+gone" Demo.fresh); reflexivity.
Defined.


Lemma getMediaURI_fetches_the_page_witness :
  exists rest,
    requests_of (getMediaURI Demo.site "episodes/+A") Demo.cached_known
    = GET (urljoin "https://overcast.fm" "+A") :: rest.
Proof.
  apply (getMediaURI_fetches_the_page Demo.site "episodes/+A"
           "episodes" "+A" Demo.cached_known).
  reflexivity.
Defined.
